(** * TransactionsSummaryChart: the aggregation pipeline of the shielded
    transaction chart (src/components/TransactionSummaryChart.tsx).

    The component loads a JSON array of per-height samples, turns it into a
    cumulative or a periodic series, optionally cuts the part before the
    orchard activation height, and hands up to four data sets to the chart.

    Modelling conventions.
    - A JavaScript [number] is an integer [Z]: heights and amounts of the
      data file are integers and every operation of the component on them
      ([+], [-], [%], [>], [>=], [==]) is exact on integers below 2^53.
      [%] is the truncating remainder, [Z.rem].  Where a property depends
      on sums of doubles being exact, the loops are stated again on
      binary64 numbers (module [Double]) and the property is proved
      there.
    - [null] in a numeric field is [None].
    - The closure variables [saplingSum], [saplingFilterSum], [orchardSum]
      and [orchardFilterSum] are one record threaded through the loops.
    - [Array.prototype.push] appends at the end of the list. *)

From Stdlib Require Import ZArith QArith Qpower Lqa SpecFloat List String Bool Lia Sorted.
Import ListNotations.
Open Scope Z_scope.

Set Implicit Arguments.

(** ** Constants *)

(** Summary of blocks by period, 8064 is roughly a week. *)
Definition BLOCKS_PERIOD : Z := 8064.

Definition ORCHARD_ACTIVATION : Z := 1687104.

(** The literal of the non-cumulative loop ([d.height % 32256 == 0]). *)
Definition MONTH_PERIOD : Z := 32256.

(** ** Data *)

(** [ShieldedTransactionDatum] as it is loaded: five numbers. *)
Record ShieldedTransactionDatum : Type := mkDatum {
  height : Z;
  sapling : Z;
  sapling_filter : Z;
  orchard : Z;
  orchard_filter : Z
}.

(** The objects built by the two aggregation loops.  They are cast to
    [ShieldedTransactionDatum] in the source, but their orchard fields may
    hold [null]. *)
Record ChartPoint : Type := mkPoint {
  p_height : Z;
  p_sapling : Z;
  p_sapling_filter : Z;
  p_orchard : option Z;
  p_orchard_filter : option Z
}.

(** The four running sums. *)
Record Sums : Type := mkSums {
  saplingSum : Z;
  saplingFilterSum : Z;
  orchardSum : Z;
  orchardFilterSum : Z
}.

Definition zeroSums : Sums := mkSums 0 0 0 0.

(** The four [+=] at the head of both loop bodies. *)
Definition addDatum (s : Sums) (d : ShieldedTransactionDatum) : Sums :=
  mkSums (saplingSum s + sapling d)
         (saplingFilterSum s + sapling_filter d)
         (orchardSum s + orchard d)
         (orchardFilterSum s + orchard_filter d).

(** [x > 0 ? v : null] *)
Definition positiveOrNull (x v : Z) : option Z :=
  if 0 <? x then Some v else None.

(** ** Cumulative series *)

(** The object returned by the callback of [chartData.map]. *)
Definition sumPoint (h : Z) (s : Sums) : ChartPoint :=
  mkPoint h
          (saplingSum s)
          (saplingFilterSum s)
          (positiveOrNull (orchardSum s) (orchardSum s))
          (positiveOrNull (orchardFilterSum s) (orchardFilterSum s)).

(** [chartData.map(d => ...)] with the sums carried from one call of the
    callback to the next. *)
Fixpoint chartDataSumFrom (s : Sums) (chartData : list ShieldedTransactionDatum)
  : list ChartPoint :=
  match chartData with
  | [] => []
  | d :: rest =>
      let s' := addDatum s d in
      sumPoint (height d) s' :: chartDataSumFrom s' rest
  end.

Definition chartDataSum (chartData : list ShieldedTransactionDatum) : list ChartPoint :=
  chartDataSumFrom zeroSums chartData.

(** [d.height % BLOCKS_PERIOD == 0] *)
Definition onPeriod (h : Z) : bool := Z.rem h BLOCKS_PERIOD =? 0.

(** [chartDataSum.filter(d => d.height % BLOCKS_PERIOD == 0)] *)
Definition cumulativeData (chartData : list ShieldedTransactionDatum) : list ChartPoint :=
  filter (fun p => onPeriod (p_height p)) (chartDataSum chartData).

(** ** Periodic series *)

(** [d.height % 32256 == 0] *)
Definition onMonth (h : Z) : bool := Z.rem h MONTH_PERIOD =? 0.

(** The object pushed at a boundary. *)
Definition bucketPoint (h : Z) (s : Sums) : ChartPoint :=
  mkPoint h
          (saplingSum s)
          (saplingSum s - saplingFilterSum s)
          (positiveOrNull (orchardSum s) (orchardSum s))
          (positiveOrNull (orchardFilterSum s) (orchardSum s - orchardFilterSum s)).

(** State of the [forEach] loop: the sums and the array being filled. *)
Record PeriodState : Type := mkPeriodState {
  sums : Sums;
  pushed : list ChartPoint
}.

Definition initPeriodState : PeriodState := mkPeriodState zeroSums [].

(** One call of the [forEach] callback. *)
Definition periodStep (st : PeriodState) (d : ShieldedTransactionDatum) : PeriodState :=
  let s' := addDatum (sums st) d in
  if onMonth (height d)
  then mkPeriodState zeroSums (pushed st ++ [bucketPoint (height d) s'])
  else mkPeriodState s' (pushed st).

Definition periodLoop (st : PeriodState) (chartData : list ShieldedTransactionDatum)
  : PeriodState :=
  fold_left periodStep chartData st.

Definition periodicData (chartData : list ShieldedTransactionDatum) : list ChartPoint :=
  pushed (periodLoop initPeriodState chartData).

(** ** Post-processing and data sets *)

(** [chartDataPeriod] before the orchard cut. *)
Definition aggregated (chartData : list ShieldedTransactionDatum) (cumulative : bool)
  : list ChartPoint :=
  if cumulative then cumulativeData chartData else periodicData chartData.

(** [chartDataPeriod] as the data sets and the labels read it. *)
Definition chartDataPeriod (chartData : list ShieldedTransactionDatum)
           (pool : string) (cumulative : bool) : list ChartPoint :=
  let points := aggregated chartData cumulative in
  if String.eqb pool "orchard"
  then filter (fun p => ORCHARD_ACTIVATION <=? p_height p) points
  else points.

(** A data set of the chart: the fields the component computes. *)
Record DataSet : Type := mkDataSet {
  label : string;
  data : list (option Z)
}.

Definition saplingChart (points : list ChartPoint) : DataSet :=
  mkDataSet "Sapling" (map (fun p => Some (p_sapling p)) points).

Definition saplingFilterChart (points : list ChartPoint) : DataSet :=
  mkDataSet "Sapling Filter" (map (fun p => Some (p_sapling_filter p)) points).

Definition orchardChart (points : list ChartPoint) : DataSet :=
  mkDataSet "Orchard" (map p_orchard points).

Definition orchardFilterChart (points : list ChartPoint) : DataSet :=
  mkDataSet "Orchard Filter" (map p_orchard_filter points).

(** [chartSets], built by the four conditional [push]. *)
Definition chartSets (pool : string) (filter : bool) (points : list ChartPoint)
  : list DataSet :=
  let sets0 : list DataSet := [] in
  let sets1 :=
    if String.eqb pool "default" || String.eqb pool "orchard"
    then (if filter then sets0 ++ [orchardFilterChart points] else sets0)
           ++ [orchardChart points]
    else sets0 in
  let sets2 :=
    if String.eqb pool "default" || String.eqb pool "sapling"
    then (if filter then sets1 ++ [saplingFilterChart points] else sets1)
           ++ [saplingChart points]
    else sets1 in
  sets2.

(** What the component hands to [new Chart] as [datasets]. *)
Definition renderedSets (chartData : list ShieldedTransactionDatum)
           (pool : string) (cumulative filter : bool) : list DataSet :=
  chartSets pool filter (chartDataPeriod chartData pool cumulative).

(** ** Loading *)

(** A parsed JSON value, what [response.json()] resolves to. *)
#[warnings="-register-all"]
Inductive json : Type :=
| JNull
| JBool (b : bool)
| JNumber (n : Z)
| JString (s : string)
| JArray (items : list json)
| JObject (fields : list (string * json)).

(** The part of a [Response] the loader reads.  [body] is [None] when
    [response.json()] rejects (the body is not well-formed JSON). *)
Record Response : Type := mkResponse {
  ok : bool;
  status : Z;
  body : option json
}.

(** How the promise of [fetch(url)] settles. *)
Inductive FetchOutcome : Type :=
| Rejected (reason : string)
| Resolved (r : Response).

(** The values [fetchTransactionData] can throw. *)
Inductive LoadError : Type :=
| TransportError (reason : string)
| HttpError (st : Z)
| SyntaxError.

(** [fetchTransactionData]: the two [await] and the [throw] in between. *)
Definition fetchTransactionData (fetch : string -> FetchOutcome) (url : string)
  : LoadError + json :=
  match fetch url with
  | Rejected reason => inl (TransportError reason)
  | Resolved response =>
      if negb (ok response) then inl (HttpError (status response))
      else match body response with
           | None => inl SyntaxError
           | Some resJson => inr resJson
           end
  end.

(** The three [useState] cells. *)
Record ComponentState : Type := mkState {
  chartData : json;
  isLoading : bool;
  error : option LoadError
}.

Definition initialState : ComponentState := mkState (JArray []) false None.

Definition setChartData (v : json) (st : ComponentState) : ComponentState :=
  mkState v (isLoading st) (error st).

Definition setIsLoading (b : bool) (st : ComponentState) : ComponentState :=
  mkState (chartData st) b (error st).

Definition setError (e : LoadError) (st : ComponentState) : ComponentState :=
  mkState (chartData st) (isLoading st) (Some e).

(** The first effect, run to the end of its promise chain. *)
Definition loadEffect (fetch : string -> FetchOutcome) (dataUrl : string)
           (st : ComponentState) : ComponentState :=
  let st1 := setIsLoading true st in
  let st2 := match fetchTransactionData fetch dataUrl with
             | inr data => setChartData data st1
             | inl e => setError e st1
             end in
  setIsLoading false st2.

(** What the component returns. *)
Inductive View : Type :=
| LoadingView
| ErrorView (e : LoadError)
| CanvasView.

Definition render (st : ComponentState) : View :=
  if isLoading st then LoadingView
  else match error st with
       | Some e => ErrorView e
       | None => CanvasView
       end.

(** The shape named by the type [Array<ShieldedTransactionDatum>]: an array
    of objects with the five numeric fields.  The type is erased at run
    time; these readers are what the annotation promises. *)
Fixpoint lookupField (k : string) (fields : list (string * json)) : option json :=
  match fields with
  | [] => None
  | (k', v) :: rest => if String.eqb k k' then Some v else lookupField k rest
  end.

Definition numberField (k : string) (fields : list (string * json)) : option Z :=
  match lookupField k fields with
  | Some (JNumber n) => Some n
  | _ => None
  end.

Definition asDatum (v : json) : option ShieldedTransactionDatum :=
  match v with
  | JObject fields =>
      match numberField "height" fields, numberField "sapling" fields,
            numberField "sapling_filter" fields, numberField "orchard" fields,
            numberField "orchard_filter" fields with
      | Some h, Some s, Some sf, Some o, Some of_ => Some (mkDatum h s sf o of_)
      | _, _, _, _, _ => None
      end
  | _ => None
  end.

Fixpoint asData (items : list json) : option (list ShieldedTransactionDatum) :=
  match items with
  | [] => Some []
  | v :: rest =>
      match asDatum v, asData rest with
      | Some d, Some ds => Some (d :: ds)
      | _, _ => None
      end
  end.

Definition asSamples (v : json) : option (list ShieldedTransactionDatum) :=
  match v with
  | JArray items => asData items
  | _ => None
  end.

Definition matchesRawSampleShape (v : json) : bool :=
  match asSamples v with Some _ => true | None => false end.

(** ** Vocabulary of the properties *)

(** Sum of one field over a run of samples. *)
Definition total (f : ShieldedTransactionDatum -> Z)
           (l : list ShieldedTransactionDatum) : Z :=
  fold_right (fun d acc => f d + acc) 0 l.

Definition totals (l : list ShieldedTransactionDatum) : Sums :=
  mkSums (total sapling l) (total sapling_filter l)
         (total orchard l) (total orchard_filter l).

(** Field-wise sum of two records of sums. *)
Definition plusSums (a b : Sums) : Sums :=
  mkSums (saplingSum a + saplingSum b)
         (saplingFilterSum a + saplingFilterSum b)
         (orchardSum a + orchardSum b)
         (orchardFilterSum a + orchardFilterSum b).

(** All four deltas of a sample are non-negative. *)
Definition nonNegative (d : ShieldedTransactionDatum) : Prop :=
  0 <= sapling d /\ 0 <= sapling_filter d /\ 0 <= orchard d /\ 0 <= orchard_filter d.

(** No sample of the run sits on a month boundary. *)
Definition offMonth (l : list ShieldedTransactionDatum) : Prop :=
  Forall (fun d => onMonth (height d) = false) l.

(** A prefix that ends where a bucket ends: empty, or closed by a sample on
    a month boundary. *)
Definition closedPrefix (l : list ShieldedTransactionDatum) : Prop :=
  l = [] \/ exists l' b, l = l' ++ [b] /\ onMonth (height b) = true.

(** [seg ++ [d]] is one bucket of [samples]: the samples after the previous
    boundary (or from the start), up to and including the boundary [d]. *)
Definition isBucket (samples seg : list ShieldedTransactionDatum)
           (d : ShieldedTransactionDatum) : Prop :=
  exists pre post,
    samples = pre ++ seg ++ d :: post /\
    closedPrefix pre /\ offMonth seg /\ onMonth (height d) = true.

(** Order on nullable running totals: [null] comes before every number. *)
Definition optLe (a b : option Z) : Prop :=
  match a, b with
  | None, _ => True
  | Some x, Some y => x <= y
  | Some _, None => False
  end.

Definition pointLe (p q : ChartPoint) : Prop :=
  p_sapling p <= p_sapling q /\
  p_sapling_filter p <= p_sapling_filter q /\
  optLe (p_orchard p) (p_orchard q) /\
  optLe (p_orchard_filter p) (p_orchard_filter q).

(** The request succeeded: the promise of [fetch] resolved and the response
    is [ok]. *)
Definition requestSucceeds (o : FetchOutcome) : bool :=
  match o with
  | Resolved r => ok r
  | Rejected _ => false
  end.

(** The body of the response is well-formed JSON. *)
Definition bodyWellFormed (o : FetchOutcome) : bool :=
  match o with
  | Resolved r => match body r with Some _ => true | None => false end
  | Rejected _ => false
  end.

(** The body is well-formed JSON of the shape of the samples. *)
Definition bodyMatchesShape (o : FetchOutcome) : bool :=
  match o with
  | Resolved r =>
      match body r with
      | Some v => matchesRawSampleShape v
      | None => false
      end
  | Rejected _ => false
  end.

(** The component holds an error. *)
Definition loadFailed (st : ComponentState) : bool :=
  match error st with Some _ => true | None => false end.

(** ** The chart *)

Inductive ChartType : Type := Line | Bar.

(** The argument of [new Chart]: the fields that depend on the inputs. *)
Record ChartConfig : Type := mkConfig {
  chartType : ChartType;
  labels : list string;
  datasets : list DataSet;
  stackedX : bool;
  stackedY : bool
}.

(** The configuration built at the end of the second effect.  [toString]
    is [Number.prototype.toString], a builtin taken as a parameter. *)
Definition chartConfig (toString : Z -> string)
           (samples : list ShieldedTransactionDatum)
           (pool : string) (cumulative filter : bool) : ChartConfig :=
  let points := chartDataPeriod samples pool cumulative in
  mkConfig (if cumulative then Line else Bar)
           (map (fun d => toString (p_height d)) points)
           (chartSets pool filter points)
           (if cumulative then false else true)
           (if cumulative then false else true).

(** The second effect: nothing is drawn while loading or without a canvas
    ([if (isLoading || !chartRef.current) return]). *)
Definition drawEffect (toString : Z -> string) (loading hasCanvas : bool)
           (samples : list ShieldedTransactionDatum)
           (pool : string) (cumulative filter : bool) : option ChartConfig :=
  if loading || negb hasCanvas then None
  else Some (chartConfig toString samples pool cumulative filter).

(** The first effect run once per value of [dataUrl], each load settled
    before the next one starts. *)
Definition loadAll (fetch : string -> FetchOutcome) (urls : list string)
           (st : ComponentState) : ComponentState :=
  fold_left (fun st0 url => loadEffect fetch url st0) urls st.

(** ** More vocabulary *)

(** The grid of a mode: weeks in cumulative mode, months otherwise. *)
Definition onGrid (cumulative : bool) (h : Z) : bool :=
  if cumulative then onPeriod h else onMonth h.


(** The data sets of the filtered series, by label. *)
Definition isFilteredSet (s : DataSet) : bool :=
  String.eqb (label s) "Orchard Filter" || String.eqb (label s) "Sapling Filter".

(** A load that ends with data: the request succeeds and the body parses. *)
Definition loadSucceeds (fetch : string -> FetchOutcome) (url : string) : bool :=
  requestSucceeds (fetch url) && bodyWellFormed (fetch url).

(** ** The same loops on IEEE doubles *)

(** The integer model above is exact arithmetic.  The sums of the component
    are sums of doubles, and a sum of doubles can round: wherever a
    property compares sums taken in different orders, the loops are
    stated again here on binary64 numbers, with the operations of the
    IEEE specification ([SFadd], [SFsub], [SFcompare] at precision 53).
    Heights stay integers. *)
Module Double.

Definition prec : Z := 53.
Definition emax : Z := 1024.

(** A JavaScript [number]. *)
Definition number : Type := spec_float.

(** The literal [0]. *)
Definition zero : number := S754_zero false.

(** [x + y] and [x - y]. *)
Definition add (x y : number) : number := SFadd prec emax x y.
Definition sub (x y : number) : number := SFsub prec emax x y.

(** [x > 0]; false on [NaN]. *)
Definition gt0 (x : number) : bool := SFltb zero x.

(** The double nearest to an integer, as a numeric literal denotes it. *)
Definition ofZ (n : Z) : number := binary_normalize prec emax n 0 false.

Record ShieldedTransactionDatum : Type := mkDatum {
  height : Z;
  sapling : number;
  sapling_filter : number;
  orchard : number;
  orchard_filter : number
}.

Record ChartPoint : Type := mkPoint {
  p_height : Z;
  p_sapling : number;
  p_sapling_filter : number;
  p_orchard : option number;
  p_orchard_filter : option number
}.

Record Sums : Type := mkSums {
  saplingSum : number;
  saplingFilterSum : number;
  orchardSum : number;
  orchardFilterSum : number
}.

Definition zeroSums : Sums := mkSums zero zero zero zero.

(** The four [+=] at the head of both loop bodies. *)
Definition addDatum (s : Sums) (d : ShieldedTransactionDatum) : Sums :=
  mkSums (add (saplingSum s) (sapling d))
         (add (saplingFilterSum s) (sapling_filter d))
         (add (orchardSum s) (orchard d))
         (add (orchardFilterSum s) (orchard_filter d)).

(** [x > 0 ? v : null]; [v] is only computed when the test holds. *)
Definition positiveOrNull (x : number) (v : number) : option number :=
  if gt0 x then Some v else None.

Definition sumPoint (h : Z) (s : Sums) : ChartPoint :=
  mkPoint h
          (saplingSum s)
          (saplingFilterSum s)
          (positiveOrNull (orchardSum s) (orchardSum s))
          (positiveOrNull (orchardFilterSum s) (orchardFilterSum s)).

Fixpoint chartDataSumFrom (s : Sums) (chartData : list ShieldedTransactionDatum)
  : list ChartPoint :=
  match chartData with
  | [] => []
  | d :: rest =>
      let s' := addDatum s d in
      sumPoint (height d) s' :: chartDataSumFrom s' rest
  end.

Definition chartDataSum (chartData : list ShieldedTransactionDatum) : list ChartPoint :=
  chartDataSumFrom zeroSums chartData.

Definition cumulativeData (chartData : list ShieldedTransactionDatum) : list ChartPoint :=
  filter (fun p => onPeriod (p_height p)) (chartDataSum chartData).

Definition bucketPoint (h : Z) (s : Sums) : ChartPoint :=
  mkPoint h
          (saplingSum s)
          (sub (saplingSum s) (saplingFilterSum s))
          (positiveOrNull (orchardSum s) (orchardSum s))
          (positiveOrNull (orchardFilterSum s)
                          (sub (orchardSum s) (orchardFilterSum s))).

Record PeriodState : Type := mkPeriodState {
  sums : Sums;
  pushed : list ChartPoint
}.

Definition initPeriodState : PeriodState := mkPeriodState zeroSums [].

Definition periodStep (st : PeriodState) (d : ShieldedTransactionDatum) : PeriodState :=
  let s' := addDatum (sums st) d in
  if onMonth (height d)
  then mkPeriodState zeroSums (pushed st ++ [bucketPoint (height d) s'])
  else mkPeriodState s' (pushed st).

Definition periodLoop (st : PeriodState) (chartData : list ShieldedTransactionDatum)
  : PeriodState :=
  fold_left periodStep chartData st.

Definition periodicData (chartData : list ShieldedTransactionDatum) : list ChartPoint :=
  pushed (periodLoop initPeriodState chartData).

(** *** Exact values *)

(** Neither an infinity nor [NaN]. *)
Definition isFinite (x : number) : bool :=
  match x with
  | S754_zero _ | S754_finite _ _ _ => true
  | S754_infinity _ | S754_nan => false
  end.

(** The rational a finite double stands for: mantissa times a power of
    two. *)
Definition value (x : number) : Q :=
  match x with
  | S754_finite s m e => (inject_Z (cond_Zopp s (Zpos m)) * Qpower 2 e)%Q
  | _ => 0%Q
  end.

(** The addition [x + y] does not round: operands and result are finite
    and the result stands for the sum of what the operands stand for. *)
Definition exactAdd (x y : number) : bool :=
  isFinite x && isFinite y && isFinite (add x y)
  && Qeq_bool (value (add x y)) (value x + value y)%Q.

Definition exactSub (x y : number) : bool :=
  isFinite x && isFinite y && isFinite (sub x y)
  && Qeq_bool (value (sub x y)) (value x - value y)%Q.

(** The four tracked quantities. *)
Inductive Quantity : Type := Sapling | SaplingFilter | Orchard | OrchardFilter.

Definition delta (q : Quantity) (d : ShieldedTransactionDatum) : number :=
  match q with
  | Sapling => sapling d
  | SaplingFilter => sapling_filter d
  | Orchard => orchard d
  | OrchardFilter => orchard_filter d
  end.

Definition acc (q : Quantity) (s : Sums) : number :=
  match q with
  | Sapling => saplingSum s
  | SaplingFilter => saplingFilterSum s
  | Orchard => orchardSum s
  | OrchardFilter => orchardFilterSum s
  end.

(** None of the four [+=] of one loop body rounds. *)
Definition exactStep (s : Sums) (d : ShieldedTransactionDatum) : bool :=
  exactAdd (acc Sapling s) (delta Sapling d)
  && exactAdd (acc SaplingFilter s) (delta SaplingFilter d)
  && exactAdd (acc Orchard s) (delta Orchard d)
  && exactAdd (acc OrchardFilter s) (delta OrchardFilter d).

(** Neither of the two subtractions of a pushed point rounds; the orchard
    one counts only when it is computed. *)
Definition exactBucket (s : Sums) : bool :=
  exactSub (saplingSum s) (saplingFilterSum s)
  && (if gt0 (orchardFilterSum s)
      then exactSub (orchardSum s) (orchardFilterSum s) else true).

(** No addition of the cumulative loop rounds on this input. *)
Fixpoint cumulativeExactFrom (s : Sums) (l : list ShieldedTransactionDatum) : bool :=
  match l with
  | [] => true
  | d :: rest => exactStep s d && cumulativeExactFrom (addDatum s d) rest
  end.

Definition cumulativeExact (l : list ShieldedTransactionDatum) : bool :=
  cumulativeExactFrom zeroSums l.

(** No addition and no subtraction of the periodic loop rounds on this
    input. *)
Fixpoint periodicExactFrom (s : Sums) (l : list ShieldedTransactionDatum) : bool :=
  match l with
  | [] => true
  | d :: rest =>
      exactStep s d
      && (if onMonth (height d)
          then exactBucket (addDatum s d) && periodicExactFrom zeroSums rest
          else periodicExactFrom (addDatum s d) rest)
  end.

Definition periodicExact (l : list ShieldedTransactionDatum) : bool :=
  periodicExactFrom zeroSums l.

(** *** Vocabulary *)

(** Sum of what one field stands for over a run of samples. *)
Definition totalValue (q : Quantity) (l : list ShieldedTransactionDatum) : Q :=
  fold_right (fun d a => (value (delta q d) + a)%Q) 0%Q l.

Definition sumQ (l : list Q) : Q := fold_right Qplus 0%Q l.

(** All four deltas are finite and not negative. *)
Definition nonNegative (d : ShieldedTransactionDatum) : Prop :=
  forall q, isFinite (delta q d) = true /\ (0 <= value (delta q d))%Q.

Definition closedPrefix (l : list ShieldedTransactionDatum) : Prop :=
  l = [] \/ exists l' b, l = l' ++ [b] /\ onMonth (height b) = true.

Definition offMonth (l : list ShieldedTransactionDatum) : Prop :=
  Forall (fun d => onMonth (height d) = false) l.

(** The input ends on a month boundary (or is empty). *)
Definition partitionsCleanly (samples : list ShieldedTransactionDatum) : Prop :=
  closedPrefix samples.

(** A nullable number read as an amount: [null] stands for nothing. *)
Definition orZero (v : option number) : Q :=
  match v with Some x => value x | None => 0%Q end.

(** The total a bucket accumulated in a quantity, read back from its point:
    the raw totals as they are, the filtered ones from the complement. *)
Definition bucketTotal (q : Quantity) (p : ChartPoint) : Q :=
  match q with
  | Sapling => value (p_sapling p)
  | SaplingFilter => (value (p_sapling p) - value (p_sapling_filter p))%Q
  | Orchard => orZero (p_orchard p)
  | OrchardFilter =>
      match p_orchard_filter p with
      | Some c => (orZero (p_orchard p) - value c)%Q
      | None => 0%Q
      end
  end.

(** The running total of a quantity on a cumulative point. *)
Definition runningTotal (q : Quantity) (p : ChartPoint) : Q :=
  match q with
  | Sapling => value (p_sapling p)
  | SaplingFilter => value (p_sapling_filter p)
  | Orchard => orZero (p_orchard p)
  | OrchardFilter => orZero (p_orchard_filter p)
  end.

Definition zeroPoint : ChartPoint := mkPoint 0 zero zero None None.

(** The last point of the cumulative series. *)
Definition finalRunning (samples : list ShieldedTransactionDatum) : ChartPoint :=
  last (cumulativeData samples) zeroPoint.

(** Rank of the next sample among the samples on the weekly grid. *)
Definition weekRank (l : list ShieldedTransactionDatum) : nat :=
  List.length (filter (fun x => onPeriod (height x)) l).

(** Sums that are finite and not negative. *)
Definition goodSums (s : Sums) : Prop :=
  forall q, isFinite (acc q s) = true /\ (0 <= value (acc q s))%Q.

(** *** Integers held exactly *)

(** [p] shifted left by [k] bits. *)
Definition shiftLeft (p : positive) (k : nat) : positive := Nat.iter k xO p.

(** Number of binary digits. *)
Definition digits (p : positive) : Z := Zpos (digits2_pos p).

(** The double of an integer of at most 53 digits: the mantissa is the
    integer shifted up to 53 digits. *)
Definition canon (s : bool) (p : positive) : number :=
  S754_finite s (shiftLeft p (Z.to_nat (53 - digits p))) (digits p - 53).

Definition signed (s : bool) (p : positive) : Z := cond_Zopp s (Zpos p).

(** The integers every one of which is a double. *)
Definition inRange (n : Z) : Prop := - 2 ^ 53 < n < 2 ^ 53.

(** *** Sample inputs *)

(** A sample with sapling activity only, the amount an integer. *)
Definition saplingOnly (h n : Z) : ShieldedTransactionDatum :=
  mkDatum h (ofZ n) zero zero zero.

(** Three samples up to the first month boundary after 0; the first
    sapling amount is 2^53, where the doubles stop holding every
    integer. *)
Definition roundingSamples : list ShieldedTransactionDatum :=
  [ saplingOnly 0 9007199254740992; saplingOnly 8064 1; saplingOnly 32256 1 ].

(** Two samples ending on a month boundary, the first with sapling 2^53,
    the second with sapling 1 and filtered sapling 1. *)
Definition roundingComplement : list ShieldedTransactionDatum :=
  [ mkDatum 8064 (ofZ 9007199254740992) zero zero zero;
    mkDatum 32256 (ofZ 1) (ofZ 1) zero zero ].

(** The integer samples of [monthSamples], cut at the last boundary. *)
Definition closedSamples : list ShieldedTransactionDatum :=
  [ mkDatum 0 (ofZ 10) (ofZ 2) zero zero;
    mkDatum 8064 (ofZ 10) (ofZ 2) (ofZ 5) zero;
    mkDatum 32256 (ofZ 7) (ofZ 1) (ofZ 3) (ofZ 2) ].

End Double.

(** ** Integer samples as doubles *)

(** The samples, sums and points of the integer model written as doubles,
    and the inputs on which both models are compared. *)
Module Embed.

Definition datum (d : ShieldedTransactionDatum) : Double.ShieldedTransactionDatum :=
  Double.mkDatum (height d) (Double.ofZ (sapling d))
                 (Double.ofZ (sapling_filter d))
                 (Double.ofZ (orchard d)) (Double.ofZ (orchard_filter d)).

Definition sumsOf (s : Sums) : Double.Sums :=
  Double.mkSums (Double.ofZ (saplingSum s)) (Double.ofZ (saplingFilterSum s))
                (Double.ofZ (orchardSum s)) (Double.ofZ (orchardFilterSum s)).

Definition point (p : ChartPoint) : Double.ChartPoint :=
  Double.mkPoint (p_height p) (Double.ofZ (p_sapling p))
                 (Double.ofZ (p_sapling_filter p))
                 (option_map Double.ofZ (p_orchard p))
                 (option_map Double.ofZ (p_orchard_filter p)).

Definition state (st : PeriodState) : Double.PeriodState :=
  Double.mkPeriodState (sumsOf (sums st)) (map point (pushed st)).

(** Sums from which the rest of the input can be added without leaving the
    integers that doubles hold exactly: no negative delta, and every sum
    stays below 2^53 to the end of the input. *)
Definition roomFor (s : Sums) (l : list ShieldedTransactionDatum) : Prop :=
  Forall nonNegative l /\
  (0 <= saplingSum s /\ saplingSum s + total sapling l < 2 ^ 53) /\
  (0 <= saplingFilterSum s /\
   saplingFilterSum s + total sapling_filter l < 2 ^ 53) /\
  (0 <= orchardSum s /\ orchardSum s + total orchard l < 2 ^ 53) /\
  (0 <= orchardFilterSum s /\
   orchardFilterSum s + total orchard_filter l < 2 ^ 53).

(** Integer samples without negative deltas whose four totals are below
    2^53. *)
Definition smallData (l : list ShieldedTransactionDatum) : Prop :=
  roomFor zeroSums l.

End Embed.


(** ** Sample inputs *)

(** Three weekly samples with sapling activity only. *)
Definition weeklySamples : list ShieldedTransactionDatum :=
  [ mkDatum 0 10 2 0 0; mkDatum 8064 10 2 0 0; mkDatum 16128 10 2 0 0 ].

(** Two month boundaries (heights 0 and 32256), a week in between that has
    orchard activity and none of it in the filtered count, and one sample
    after the last boundary. *)
Definition monthSamples : list ShieldedTransactionDatum :=
  [ mkDatum 0 10 2 0 0;
    mkDatum 8064 10 2 5 0;
    mkDatum 32256 7 1 3 0;
    mkDatum 40320 4 1 2 1 ].

(** The same input cut at its last month boundary. *)
Definition closedSamples : list ShieldedTransactionDatum :=
  [ mkDatum 0 10 2 0 0;
    mkDatum 8064 10 2 5 0;
    mkDatum 32256 7 1 3 0 ].

(** Samples around the orchard activation height: on the weekly grid just
    below it (1685376) and just above it (1693440), on the monthly grid
    before it (1612800) and after it (1709568), and one off both grids. *)
Definition activationSamples : list ShieldedTransactionDatum :=
  [ mkDatum 1612800 3 1 0 0;
    mkDatum 1680000 9 9 9 9;
    mkDatum 1685376 2 1 4 2;
    mkDatum 1693440 5 2 6 3;
    mkDatum 1709568 1 0 1 1 ].

(** A server that answers every request with status 200 and the body [v]. *)
Definition serves (v : json) : string -> FetchOutcome :=
  fun _ => Resolved (mkResponse true 200 (Some v)).

(** A body that parses but is not an array of samples: its only record has
    a height and nothing else. *)
Definition truncatedBody : json :=
  JArray [ JObject [ ("height"%string, JNumber 0) ] ].

(** A body of two well-formed samples, the second with a field more. *)
Definition sampleBody : json :=
  JArray
    [ JObject [ ("height"%string, JNumber 0); ("sapling"%string, JNumber 10);
                ("sapling_filter"%string, JNumber 2);
                ("orchard"%string, JNumber 0);
                ("orchard_filter"%string, JNumber 0) ];
      JObject [ ("height"%string, JNumber 8064); ("sapling"%string, JNumber 10);
                ("sapling_filter"%string, JNumber 2);
                ("orchard"%string, JNumber 5);
                ("orchard_filter"%string, JNumber 0);
                ("note"%string, JString "week 1") ] ].

(** A network on which one address answers with [sampleBody], one with an
    empty array, and every other request is rejected. *)
Definition flakyNetwork : string -> FetchOutcome :=
  fun url =>
    if String.eqb url "good.json" then Resolved (mkResponse true 200 (Some sampleBody))
    else if String.eqb url "empty.json" then Resolved (mkResponse true 200 (Some (JArray [])))
    else Rejected "offline".

(** * Properties *)

(** ** The two modes on small inputs *)

Example weekly_cumulative :
  cumulativeData weeklySamples =
    [ mkPoint 0 10 2 None None;
      mkPoint 8064 20 4 None None;
      mkPoint 16128 30 6 None None ].
Proof. reflexivity. Qed.

Example weekly_periodic :
  periodicData weeklySamples = [ mkPoint 0 10 8 None None ].
Proof. reflexivity. Qed.

Example month_cumulative :
  cumulativeData monthSamples =
    [ mkPoint 0 10 2 None None;
      mkPoint 8064 20 4 (Some 5) None;
      mkPoint 32256 27 5 (Some 8) None;
      mkPoint 40320 31 6 (Some 10) (Some 1) ].
Proof. reflexivity. Qed.

Example month_periodic :
  periodicData monthSamples =
    [ mkPoint 0 10 8 None None; mkPoint 32256 17 14 (Some 8) None ].
Proof. reflexivity. Qed.

Example default_pool_sets :
  map label (renderedSets monthSamples "default" true true) =
    [ "Orchard Filter"; "Orchard"; "Sapling Filter"; "Sapling" ]%string.
Proof. reflexivity. Qed.

(** ** Running sums *)

Lemma total_app (f : ShieldedTransactionDatum -> Z) l1 l2 :
  total f (l1 ++ l2) = total f l1 + total f l2.
Proof.
  induction l1 as [|d l1 IH]; simpl; [reflexivity|].
  rewrite IH. lia.
Qed.

Lemma total_nonneg (f : ShieldedTransactionDatum -> Z) l :
  Forall (fun d => 0 <= f d) l -> 0 <= total f l.
Proof.
  induction 1 as [|d l Hd _ IH]; simpl; lia.
Qed.

(** The sums after a run of [+=] are the sums before plus the totals of
    the run. *)

Lemma addDatum_fold s l :
  fold_left addDatum l s = plusSums s (totals l).
Proof.
  revert s; induction l as [|d l IH]; intros s; simpl.
  - destruct s; unfold plusSums; simpl; f_equal; lia.
  - rewrite IH. unfold plusSums, addDatum; simpl. f_equal; lia.
Qed.

Lemma plusSums_zero_l s : plusSums zeroSums s = s.
Proof. destruct s; reflexivity. Qed.

Lemma totals_snoc l d : totals (l ++ [d]) = addDatum (totals l) d.
Proof.
  unfold totals, addDatum; simpl.
  rewrite !total_app; simpl. f_equal; lia.
Qed.

Lemma nonNegative_totals l :
  Forall nonNegative l ->
  0 <= total sapling l /\ 0 <= total sapling_filter l /\
  0 <= total orchard l /\ 0 <= total orchard_filter l.
Proof.
  intros H.
  repeat split; apply total_nonneg; eapply Forall_impl; try exact H;
    intros d Hd; unfold nonNegative in Hd; tauto.
Qed.

Lemma positiveOrNull_none x v :
  0 <= x -> (positiveOrNull x v = None <-> x = 0).
Proof.
  intros Hx. unfold positiveOrNull.
  destruct (0 <? x) eqn:E.
  - apply Z.ltb_lt in E. split; [discriminate | lia].
  - apply Z.ltb_ge in E. split; [lia | reflexivity].
Qed.

(** ** The cumulative series, point by point *)

Lemma chartDataSumFrom_app s l1 l2 :
  chartDataSumFrom s (l1 ++ l2) =
  chartDataSumFrom s l1 ++ chartDataSumFrom (fold_left addDatum l1 s) l2.
Proof.
  revert s; induction l1 as [|d l1 IH]; intros s; simpl; [reflexivity|].
  now rewrite IH.
Qed.

Lemma chartDataSumFrom_heights s l :
  map p_height (chartDataSumFrom s l) = map height l.
Proof.
  revert s; induction l as [|d l IH]; intros s; simpl; [reflexivity|].
  now rewrite IH.
Qed.

(** The point built for [d] carries the totals of everything up to [d]. *)
Lemma chartDataSum_split pre d post :
  chartDataSum (pre ++ d :: post) =
  chartDataSum pre
    ++ sumPoint (height d) (totals (pre ++ [d]))
    :: chartDataSumFrom (totals (pre ++ [d])) post.
Proof.
  unfold chartDataSum.
  rewrite chartDataSumFrom_app; simpl.
  rewrite addDatum_fold, plusSums_zero_l, totals_snoc.
  reflexivity.
Qed.

Lemma chartDataSumFrom_In s l p :
  In p (chartDataSumFrom s l) ->
  exists pre d post,
    l = pre ++ d :: post /\
    p = sumPoint (height d) (fold_left addDatum (pre ++ [d]) s).
Proof.
  revert s; induction l as [|d l IH]; intros s; simpl; [tauto|].
  intros [Hp | Hp].
  - exists [], d, l. split; [reflexivity | now subst p].
  - destruct (IH _ Hp) as (pre & d' & post & -> & ->).
    exists (d :: pre), d', post. split; reflexivity.
Qed.

Lemma filter_heights_length s l :
  List.length (filter (fun p => onPeriod (p_height p)) (chartDataSumFrom s l)) =
  List.length (filter (fun d => onPeriod (height d)) l).
Proof.
  revert s; induction l as [|d l IH]; intros s; simpl; [reflexivity|].
  destruct (onPeriod (height d)); simpl; now rewrite IH.
Qed.

Lemma cumulativeData_In samples p :
  In p (cumulativeData samples) ->
  exists pre d post,
    samples = pre ++ d :: post /\
    onPeriod (height d) = true /\
    p = sumPoint (height d) (totals (pre ++ [d])).
Proof.
  unfold cumulativeData. intros Hp.
  apply filter_In in Hp. destruct Hp as [Hin Hon].
  apply chartDataSumFrom_In in Hin.
  destruct Hin as (pre & d & post & -> & ->).
  rewrite addDatum_fold, plusSums_zero_l in *.
  exists pre, d, post. repeat split; trivial.
Qed.

Lemma cumulativeData_nth pre d post :
  onPeriod (height d) = true ->
  nth_error (cumulativeData (pre ++ d :: post))
            (List.length (filter (fun x => onPeriod (height x)) pre)) =
  Some (sumPoint (height d) (totals (pre ++ [d]))).
Proof.
  intros Hd. unfold cumulativeData.
  rewrite chartDataSum_split, filter_app. simpl.
  rewrite Hd.
  unfold chartDataSum at 1.
  rewrite <- (filter_heights_length zeroSums pre).
  rewrite nth_error_app2 by apply Nat.le_refl.
  now rewrite Nat.sub_diag.
Qed.

Lemma cumulativeData_heights samples :
  map p_height (cumulativeData samples) =
  filter onPeriod (map height samples).
Proof.
  unfold cumulativeData, chartDataSum.
  generalize zeroSums.
  induction samples as [|d l IH]; intros s; simpl; [reflexivity|].
  destruct (onPeriod (height d)); simpl; now rewrite IH.
Qed.

(** ** The periodic loop, bucket by bucket *)

Lemma periodLoop_app st l1 l2 :
  periodLoop st (l1 ++ l2) = periodLoop (periodLoop st l1) l2.
Proof. apply fold_left_app. Qed.

Lemma periodLoop_snoc st l d :
  periodLoop st (l ++ [d]) = periodStep (periodLoop st l) d.
Proof. now rewrite periodLoop_app. Qed.

(** Off a boundary the loop only adds to the sums. *)
Lemma periodLoop_offMonth st seg :
  offMonth seg ->
  periodLoop st seg =
  mkPeriodState (fold_left addDatum seg (sums st)) (pushed st).
Proof.
  intros H; revert st.
  induction H as [|d seg Hd _ IH]; intros st; simpl.
  - now destruct st.
  - rewrite IH. unfold periodStep. now rewrite Hd.
Qed.

Lemma isBucket_extend l more seg d :
  isBucket l seg d -> isBucket (l ++ more) seg d.
Proof.
  intros (pre & post & -> & Hpre & Hseg & Hd).
  exists pre, (post ++ more). repeat split; trivial.
  now rewrite <- !app_assoc.
Qed.

(** After any input the loop has pushed one point per closed bucket, and
    its sums hold the totals of the samples after the last boundary. *)
Lemma periodLoop_invariant samples :
  exists pre seg,
    samples = pre ++ seg /\
    closedPrefix pre /\ offMonth seg /\
    sums (periodLoop initPeriodState samples) = totals seg /\
    forall p, In p (periodicData samples) ->
      exists seg0 d,
        isBucket pre seg0 d /\
        p = bucketPoint (height d) (totals (seg0 ++ [d])).
Proof.
  unfold periodicData.
  induction samples as [|d samples IH] using rev_ind.
  - exists [], []. repeat split; try constructor; trivial.
    simpl; tauto.
  - destruct IH as (pre & seg & -> & Hpre & Hseg & Hsums & Hpts).
    rewrite periodLoop_snoc. unfold periodStep.
    destruct (onMonth (height d)) eqn:Hd; simpl.
    + exists ((pre ++ seg) ++ [d]), []. repeat split.
      * now rewrite app_nil_r.
      * right. now exists (pre ++ seg), d.
      * constructor.
      * intros p Hp. apply in_app_or in Hp. destruct Hp as [Hp | [<- | []]].
        -- destruct (Hpts _ Hp) as (seg0 & d0 & Hb & ->).
           exists seg0, d0. split; trivial.
           rewrite <- app_assoc. now apply isBucket_extend.
        -- exists seg, d. split.
           ++ exists pre, []. repeat split; trivial.
              now rewrite <- app_assoc.
           ++ now rewrite Hsums, totals_snoc.
    + exists pre, (seg ++ [d]). repeat split; trivial.
      * now rewrite app_assoc.
      * apply Forall_app. split; trivial. now constructor.
      * now rewrite Hsums, totals_snoc.
Qed.

(** Every pushed point is the point of a bucket of the input. *)
Lemma periodicData_In samples p :
  In p (periodicData samples) ->
  exists seg d,
    isBucket samples seg d /\
    p = bucketPoint (height d) (totals (seg ++ [d])).
Proof.
  intros Hp.
  destruct (periodLoop_invariant samples)
    as (pre & seg & -> & _ & _ & _ & Hpts).
  destruct (Hpts _ Hp) as (seg0 & d & Hb & ->).
  exists seg0, d. split; trivial. now apply isBucket_extend.
Qed.

(** The loop never takes back what it pushed. *)
Lemma periodLoop_pushed st l :
  pushed (periodLoop st l) =
  pushed st ++ pushed (periodLoop (mkPeriodState (sums st) []) l).
Proof.
  induction l as [|d l IH] using rev_ind.
  - simpl. now rewrite app_nil_r.
  - rewrite !periodLoop_snoc. unfold periodStep.
    assert (Hs : forall st0, sums (periodLoop st0 l) =
                 sums (periodLoop (mkPeriodState (sums st0) []) l)).
    { clear. intros st0. revert st0.
      induction l as [|d l IH] using rev_ind; intros st0; [reflexivity|].
      rewrite !periodLoop_snoc. unfold periodStep.
      rewrite (IH st0).
      destruct (onMonth (height d)); reflexivity. }
    rewrite (Hs st).
    destruct (onMonth (height d)); simpl.
    + rewrite IH. now rewrite <- app_assoc.
    + exact IH.
Qed.

Lemma closedPrefix_sums pre :
  closedPrefix pre ->
  sums (periodLoop initPeriodState pre) = zeroSums.
Proof.
  intros [-> | (l & b & -> & Hb)]; [reflexivity|].
  rewrite periodLoop_snoc. unfold periodStep. now rewrite Hb.
Qed.

(** Every bucket of the input has its point pushed. *)
Lemma periodicData_bucket samples seg d :
  isBucket samples seg d ->
  In (bucketPoint (height d) (totals (seg ++ [d]))) (periodicData samples).
Proof.
  intros (pre & post & -> & Hpre & Hseg & Hd).
  unfold periodicData.
  replace (pre ++ seg ++ d :: post) with (((pre ++ seg) ++ [d]) ++ post)
    by now rewrite <- !app_assoc.
  rewrite (periodLoop_app _ _ post), periodLoop_pushed.
  apply in_or_app; left.
  rewrite periodLoop_snoc, periodLoop_app, (periodLoop_offMonth _ Hseg).
  unfold periodStep; simpl. rewrite Hd; simpl.
  apply in_or_app; right. left.
  rewrite closedPrefix_sums by trivial.
  now rewrite addDatum_fold, plusSums_zero_l, totals_snoc.
Qed.

(** Samples after the last boundary change the sums, not the output. *)
Lemma periodLoop_tail samples tail :
  offMonth tail ->
  periodLoop initPeriodState (samples ++ tail) =
  mkPeriodState
    (plusSums (sums (periodLoop initPeriodState samples)) (totals tail))
    (periodicData samples).
Proof.
  intros Ht.
  rewrite periodLoop_app, (periodLoop_offMonth _ Ht), addDatum_fold.
  reflexivity.
Qed.

(** ** Periodic mode *)

(** C1.  In periodic mode every emitted point is the point of one bucket of
    the input (the samples after the previous month boundary, up to and
    including the next one): its [sapling] is the bucket's sapling total and
    its [orchard], when present, the bucket's orchard total (it is absent
    only when that total is not positive); its [sapling_filter] is the
    sapling total minus the filtered sapling total, and its
    [orchard_filter], when present, the orchard total minus the filtered
    orchard total, not the filtered totals themselves. *)
Theorem periodic_point_reports_complement samples p :
  In p (periodicData samples) ->
  exists seg d,
    isBucket samples seg d /\
    p_height p = height d /\
    p_sapling p = total sapling (seg ++ [d]) /\
    (forall v, p_orchard p = Some v -> v = total orchard (seg ++ [d])) /\
    (p_orchard p = None -> total orchard (seg ++ [d]) <= 0) /\
    p_sapling_filter p =
      total sapling (seg ++ [d]) - total sapling_filter (seg ++ [d]) /\
    (forall c, p_orchard_filter p = Some c ->
       c = total orchard (seg ++ [d]) - total orchard_filter (seg ++ [d])) /\
    (p_orchard_filter p = None -> total orchard_filter (seg ++ [d]) <= 0).
Proof.
  intros Hp.
  destruct (periodicData_In _ _ Hp) as (seg & d & Hb & ->).
  exists seg, d. split; [exact Hb|].
  unfold bucketPoint, positiveOrNull; simpl.
  repeat split; trivial.
  - intros v. destruct (0 <? _); congruence.
  - destruct (0 <? _) eqn:E; [discriminate|]. intros _. now apply Z.ltb_ge.
  - intros c. destruct (0 <? _); congruence.
  - destruct (0 <? _) eqn:E; [discriminate|]. intros _. now apply Z.ltb_ge.
Qed.

Lemma periodic_point_reports_complement_witness :
  exists seg d,
    isBucket monthSamples seg d /\
    p_height (mkPoint 32256 17 14 (Some 8) None) = height d /\
    p_sapling (mkPoint 32256 17 14 (Some 8) None) = total sapling (seg ++ [d]) /\
    (forall v, p_orchard (mkPoint 32256 17 14 (Some 8) None) = Some v ->
       v = total orchard (seg ++ [d])) /\
    (p_orchard (mkPoint 32256 17 14 (Some 8) None) = None ->
       total orchard (seg ++ [d]) <= 0) /\
    p_sapling_filter (mkPoint 32256 17 14 (Some 8) None) =
      total sapling (seg ++ [d]) - total sapling_filter (seg ++ [d]) /\
    (forall c, p_orchard_filter (mkPoint 32256 17 14 (Some 8) None) = Some c ->
       c = total orchard (seg ++ [d]) - total orchard_filter (seg ++ [d])) /\
    (p_orchard_filter (mkPoint 32256 17 14 (Some 8) None) = None ->
       total orchard_filter (seg ++ [d]) <= 0).
Proof.
  apply (periodic_point_reports_complement monthSamples).
  simpl. right. left. reflexivity.
Defined.

(** C8.  In periodic mode a first sample at height 0 is on a boundary: the
    loop pushes one point at height 0 built from that sample's own deltas
    and leaves the four sums at zero, so the rest of the input is
    aggregated as if it started afresh. *)
Theorem height_zero_is_a_boundary d rest :
  height d = 0 ->
  periodLoop initPeriodState [d] =
    mkPeriodState (mkSums 0 0 0 0)
      [ mkPoint 0 (sapling d) (sapling d - sapling_filter d)
          (if 0 <? orchard d then Some (orchard d) else None)
          (if 0 <? orchard_filter d
           then Some (orchard d - orchard_filter d) else None) ] /\
  periodicData (d :: rest) =
    mkPoint 0 (sapling d) (sapling d - sapling_filter d)
      (if 0 <? orchard d then Some (orchard d) else None)
      (if 0 <? orchard_filter d
       then Some (orchard d - orchard_filter d) else None)
    :: periodicData rest.
Proof.
  intros Hh.
  assert (Hstep : periodStep initPeriodState d =
    mkPeriodState zeroSums
      [ mkPoint 0 (sapling d) (sapling d - sapling_filter d)
          (if 0 <? orchard d then Some (orchard d) else None)
          (if 0 <? orchard_filter d
           then Some (orchard d - orchard_filter d) else None) ]).
  { unfold periodStep, onMonth. rewrite Hh. simpl.
    unfold bucketPoint, positiveOrNull. simpl. reflexivity. }
  split.
  - simpl. exact Hstep.
  - unfold periodicData. simpl. rewrite Hstep.
    rewrite periodLoop_pushed. reflexivity.
Qed.

Lemma height_zero_is_a_boundary_witness :
  periodLoop initPeriodState [mkDatum 0 10 2 0 0] =
    mkPeriodState (mkSums 0 0 0 0) [ mkPoint 0 10 8 None None ] /\
  periodicData monthSamples =
    mkPoint 0 10 8 None None
    :: periodicData [ mkDatum 8064 10 2 5 0; mkDatum 32256 7 1 3 0;
                      mkDatum 40320 4 1 2 1 ].
Proof.
  exact (@height_zero_is_a_boundary (mkDatum 0 10 2 0 0)
           [ mkDatum 8064 10 2 5 0; mkDatum 32256 7 1 3 0;
             mkDatum 40320 4 1 2 1 ] eq_refl).
Defined.

(** C9.  In periodic mode the samples after the last month boundary are
    added to the four sums and appear in no emitted point: the output for
    an input followed by samples off the boundary is the output for the
    input alone, whatever the deltas of those samples. *)
Theorem trailing_samples_are_discarded samples tail :
  offMonth tail ->
  periodicData (samples ++ tail) = periodicData samples /\
  sums (periodLoop initPeriodState (samples ++ tail)) =
    plusSums (sums (periodLoop initPeriodState samples)) (totals tail) /\
  (closedPrefix samples ->
   sums (periodLoop initPeriodState (samples ++ tail)) = totals tail).
Proof.
  intros Ht.
  unfold periodicData at 1.
  rewrite (periodLoop_tail samples Ht). simpl.
  repeat split.
  intros Hc. rewrite (closedPrefix_sums Hc). apply plusSums_zero_l.
Qed.

Lemma trailing_samples_are_discarded_witness :
  periodicData (closedSamples ++ [mkDatum 40320 4 1 2 1]) =
    periodicData closedSamples /\
  sums (periodLoop initPeriodState (closedSamples ++ [mkDatum 40320 4 1 2 1])) =
    plusSums (sums (periodLoop initPeriodState closedSamples))
             (totals [mkDatum 40320 4 1 2 1]) /\
  (closedPrefix closedSamples ->
   sums (periodLoop initPeriodState (closedSamples ++ [mkDatum 40320 4 1 2 1])) =
     totals [mkDatum 40320 4 1 2 1]).
Proof.
  apply (@trailing_samples_are_discarded closedSamples [mkDatum 40320 4 1 2 1]).
  repeat constructor.
Defined.

(** ** Cumulative mode *)

(** C4.  In cumulative mode the output holds exactly the points of the
    samples whose height is a multiple of 8064, in input order: the heights
    of the output are the heights of the input that pass the modulo test,
    every output point belongs to such a sample and carries the running
    totals up to and including it, and every such sample has its point in
    the output, at the rank it has among the samples on the grid.  A sample
    off the grid gets no point. *)
Theorem cumulative_keeps_exactly_period_multiples samples :
  map p_height (cumulativeData samples) =
    filter (fun h => Z.rem h 8064 =? 0) (map height samples) /\
  (forall p, In p (cumulativeData samples) ->
     Z.rem (p_height p) 8064 = 0 /\
     exists pre d post,
       samples = pre ++ d :: post /\
       p = mkPoint (height d)
             (total sapling (pre ++ [d]))
             (total sapling_filter (pre ++ [d]))
             (if 0 <? total orchard (pre ++ [d])
              then Some (total orchard (pre ++ [d])) else None)
             (if 0 <? total orchard_filter (pre ++ [d])
              then Some (total orchard_filter (pre ++ [d])) else None)) /\
  (forall pre d post,
     samples = pre ++ d :: post ->
     Z.rem (height d) 8064 = 0 ->
     nth_error (cumulativeData samples)
       (List.length (filter (fun x => Z.rem (height x) 8064 =? 0) pre)) =
     Some (mkPoint (height d)
             (total sapling (pre ++ [d]))
             (total sapling_filter (pre ++ [d]))
             (if 0 <? total orchard (pre ++ [d])
              then Some (total orchard (pre ++ [d])) else None)
             (if 0 <? total orchard_filter (pre ++ [d])
              then Some (total orchard_filter (pre ++ [d])) else None))) /\
  (forall d, In d samples -> Z.rem (height d) 8064 <> 0 ->
     ~ In (height d) (map p_height (cumulativeData samples))).
Proof.
  repeat split.
  - apply cumulativeData_heights.
  - apply (in_map p_height) in H.
    rewrite cumulativeData_heights in H.
    apply filter_In in H. now apply Z.eqb_eq.
  - destruct (cumulativeData_In _ _ H) as (pre & d & post & -> & _ & ->).
    now exists pre, d, post.
  - intros pre d post -> Hd.
    apply Z.eqb_eq in Hd.
    exact (cumulativeData_nth pre d post Hd).
  - intros d _ Hd Hin.
    rewrite cumulativeData_heights in Hin.
    apply filter_In in Hin. destruct Hin as [_ Hin].
    unfold onPeriod, BLOCKS_PERIOD in Hin.
    apply Z.eqb_eq in Hin. contradiction.
Qed.

Lemma cumulative_keeps_exactly_period_multiples_witness :
  map p_height (cumulativeData activationSamples) =
    [1612800; 1685376; 1693440; 1709568] /\
  nth_error (cumulativeData activationSamples) 1 =
    Some (mkPoint 1685376 14 11 (Some 13) (Some 11)) /\
  ~ In 1680000 (map p_height (cumulativeData activationSamples)).
Proof.
  pose proof (cumulative_keeps_exactly_period_multiples activationSamples)
    as (Hh & _ & Hkept & Hdrop).
  split; [exact Hh|]. split.
  - exact (Hkept [mkDatum 1612800 3 1 0 0; mkDatum 1680000 9 9 9 9]
                 (mkDatum 1685376 2 1 4 2)
                 [mkDatum 1693440 5 2 6 3; mkDatum 1709568 1 0 1 1]
                 eq_refl eq_refl).
  - apply (Hdrop (mkDatum 1680000 9 9 9 9)).
    + simpl. right. left. reflexivity.
    + simpl. discriminate.
Defined.

Lemma optLe_trans a b c : optLe a b -> optLe b c -> optLe a c.
Proof. destruct a, b, c; simpl; try tauto; lia. Qed.

Lemma pointLe_trans p q r : pointLe p q -> pointLe q r -> pointLe p r.
Proof.
  unfold pointLe. intros (H1 & H2 & H3 & H4) (K1 & K2 & K3 & K4).
  repeat split; try lia; eapply optLe_trans; eassumption.
Qed.

Lemma positiveOrNull_mono x y :
  x <= y -> optLe (positiveOrNull x x) (positiveOrNull y y).
Proof.
  intros H. unfold positiveOrNull.
  destruct (0 <? x) eqn:Ex, (0 <? y) eqn:Ey; simpl; trivial.
  apply Z.ltb_lt in Ex. apply Z.ltb_ge in Ey. lia.
Qed.

Lemma sumPoint_addDatum h h' s d :
  nonNegative d -> pointLe (sumPoint h s) (sumPoint h' (addDatum s d)).
Proof.
  intros (H1 & H2 & H3 & H4). unfold pointLe, sumPoint, addDatum; simpl.
  repeat split; try lia; apply positiveOrNull_mono; lia.
Qed.

(** Every point built from [s] onwards is above the point of [s]. *)
Lemma chartDataSumFrom_lower h s l :
  Forall nonNegative l ->
  Forall (pointLe (sumPoint h s)) (chartDataSumFrom s l).
Proof.
  intros H; revert h s.
  induction H as [|d l Hd _ IH]; intros h s; simpl; constructor.
  - now apply sumPoint_addDatum.
  - eapply Forall_impl; [|apply (IH (height d) (addDatum s d))].
    intros q Hq. eapply pointLe_trans; [|exact Hq].
    now apply sumPoint_addDatum.
Qed.

Lemma chartDataSumFrom_sorted s l :
  Forall nonNegative l ->
  StronglySorted pointLe (chartDataSumFrom s l).
Proof.
  intros H; revert s.
  induction H as [|d l Hd Hl IH]; intros s; simpl; constructor.
  - apply IH.
  - now apply chartDataSumFrom_lower.
Qed.

Lemma StronglySorted_filter (A : Type) (R : A -> A -> Prop) (f : A -> bool) l :
  StronglySorted R l -> StronglySorted R (filter f l).
Proof.
  induction 1 as [|a l Hl IH Ha]; simpl; [constructor|].
  destruct (f a); [constructor|]; trivial.
  apply Forall_forall. intros x Hx.
  apply filter_In in Hx. destruct Hx as [Hx _].
  revert x Hx. now apply Forall_forall.
Qed.

(** C7.  When no delta is negative, the four running totals never decrease
    along the cumulative output: each emitted point is below every later
    one in [sapling], in [sapling_filter], in [orchard] and in
    [orchard_filter], an absent orchard value (a total still at zero)
    coming before every number. *)
Theorem cumulative_totals_are_monotone samples :
  Forall nonNegative samples ->
  StronglySorted pointLe (cumulativeData samples).
Proof.
  intros H. unfold cumulativeData, chartDataSum.
  apply StronglySorted_filter. now apply chartDataSumFrom_sorted.
Qed.

Lemma cumulative_totals_are_monotone_witness :
  StronglySorted pointLe (cumulativeData activationSamples).
Proof.
  apply (cumulative_totals_are_monotone (samples := activationSamples)).
  unfold activationSamples, nonNegative.
  repeat constructor; simpl; lia.
Defined.

(** ** Post-processing *)

Lemma geb_activation_negb h :
  (ORCHARD_ACTIVATION <=? h) = negb (h <? ORCHARD_ACTIVATION).
Proof.
  destruct (h <? ORCHARD_ACTIVATION) eqn:E; simpl.
  - apply Z.ltb_lt in E. apply Z.leb_gt. exact E.
  - apply Z.ltb_ge in E. apply Z.leb_le. exact E.
Qed.

(** C6.  With the pool set to orchard, in both modes, the points handed on
    are the aggregated points without those whose height is strictly below
    1687104: the same points in the same order, each kept as it is, and a
    point is handed on exactly when it was aggregated and its height is not
    below the activation height. *)
Theorem orchard_only_cuts_below_activation samples cumulative :
  chartDataPeriod samples "orchard" cumulative =
    filter (fun p => negb (p_height p <? 1687104)) (aggregated samples cumulative) /\
  (forall p,
     In p (chartDataPeriod samples "orchard" cumulative) <->
     In p (aggregated samples cumulative) /\ ~ p_height p < 1687104).
Proof.
  assert (E : chartDataPeriod samples "orchard" cumulative =
    filter (fun p => negb (p_height p <? 1687104)) (aggregated samples cumulative)).
  { unfold chartDataPeriod. simpl.
    apply filter_ext. intros p. apply geb_activation_negb. }
  split; [exact E|].
  intros p. rewrite E, filter_In.
  rewrite negb_true_iff, Z.ltb_ge.
  split; intros [Hin Hh]; (split; [exact Hin | lia]).
Qed.

Lemma orchard_only_cuts_below_activation_witness :
  chartDataPeriod activationSamples "orchard" true =
    [ mkPoint 1693440 19 13 (Some 19) (Some 14);
      mkPoint 1709568 20 13 (Some 20) (Some 15) ] /\
  chartDataPeriod activationSamples "orchard" false =
    [ mkPoint 1709568 17 5 (Some 20) (Some 5) ] /\
  aggregated activationSamples false =
    [ mkPoint 1612800 3 2 None None; mkPoint 1709568 17 5 (Some 20) (Some 5) ].
Proof.
  rewrite (proj1 (orchard_only_cuts_below_activation activationSamples true)).
  rewrite (proj1 (orchard_only_cuts_below_activation activationSamples false)).
  repeat split.
Defined.

(** C10.  For a pool other than default, orchard and sapling no data set is
    handed to the chart, whatever the samples, the mode and the filter
    flag. *)
Theorem unknown_pool_renders_no_series pool filter cumulative samples :
  pool <> "default"%string ->
  pool <> "orchard"%string ->
  pool <> "sapling"%string ->
  renderedSets samples pool cumulative filter = [] /\
  forall points, chartSets pool filter points = [].
Proof.
  intros Hd Ho Hs.
  apply String.eqb_neq in Hd, Ho, Hs.
  unfold renderedSets, chartSets.
  rewrite Hd, Ho, Hs. simpl. split; reflexivity.
Qed.

Lemma unknown_pool_renders_no_series_witness :
  renderedSets monthSamples "transparent" false true = [] /\
  forall points, chartSets "transparent" true points = [].
Proof.
  apply (@unknown_pool_renders_no_series "transparent" true false monthSamples);
    discriminate.
Defined.

(** ** Absent orchard values *)

(** C2, as stated, fails in periodic mode: the second bucket of
    [monthSamples] (heights 8064 and 32256, no negative delta) accumulates
    8 in orchard and 0 in the filtered orchard count, and its point has
    [orchard_filter] absent although the bucket's orchard accumulation is
    not zero. *)
Lemma orchard_filter_absent_in_active_bucket :
  Forall nonNegative monthSamples /\
  periodicData monthSamples =
    [ mkPoint 0 10 8 None None; mkPoint 32256 17 14 (Some 8) None ] /\
  isBucket monthSamples [mkDatum 8064 10 2 5 0] (mkDatum 32256 7 1 3 0) /\
  total orchard ([mkDatum 8064 10 2 5 0] ++ [mkDatum 32256 7 1 3 0]) = 8 /\
  p_orchard_filter (mkPoint 32256 17 14 (Some 8) None) = None /\
  total orchard ([mkDatum 8064 10 2 5 0] ++ [mkDatum 32256 7 1 3 0]) <> 0.
Proof.
  split.
  { unfold monthSamples, nonNegative. repeat constructor; simpl; lia. }
  split; [reflexivity|]. split.
  { exists [mkDatum 0 10 2 0 0], [mkDatum 40320 4 1 2 1].
    repeat split.
    - right. exists [], (mkDatum 0 10 2 0 0). split; reflexivity.
    - repeat constructor. }
  split; [reflexivity|]. split; [reflexivity|].
  simpl. discriminate.
Qed.

(** C2, amended.  When no delta is negative, each emitted orchard value
    follows its own accumulated value, in both modes: [orchard] is absent
    exactly when the orchard total (running total of the prefix in
    cumulative mode, total of the bucket in periodic mode) is zero, and
    [orchard_filter] is absent exactly when the filtered orchard total is
    zero.  In periodic mode [orchard_filter] is therefore governed by the
    bucket's filtered accumulation, not by its orchard accumulation. *)
Theorem orchard_values_absent_iff_zero samples :
  Forall nonNegative samples ->
  (forall p, In p (cumulativeData samples) ->
     exists pre d post,
       samples = pre ++ d :: post /\
       p_height p = height d /\
       p_sapling p = total sapling (pre ++ [d]) /\
       (p_orchard p = None <-> total orchard (pre ++ [d]) = 0) /\
       (p_orchard_filter p = None <-> total orchard_filter (pre ++ [d]) = 0)) /\
  (forall p, In p (periodicData samples) ->
     exists seg d,
       isBucket samples seg d /\
       p_height p = height d /\
       p_sapling p = total sapling (seg ++ [d]) /\
       (p_orchard p = None <-> total orchard (seg ++ [d]) = 0) /\
       (p_orchard_filter p = None <-> total orchard_filter (seg ++ [d]) = 0)).
Proof.
  intros Hnn. split; intros p Hp.
  - destruct (cumulativeData_In _ _ Hp) as (pre & d & post & E & _ & ->).
    exists pre, d, post. split; [exact E|].
    assert (Hsub : Forall nonNegative (pre ++ [d])).
    { subst samples. apply Forall_app in Hnn. destruct Hnn as [H1 H2].
      apply Forall_app. split; trivial.
      inversion H2; subst. constructor; [assumption | constructor]. }
    destruct (nonNegative_totals Hsub) as (_ & _ & Ho & Hof).
    simpl. repeat split; trivial;
      apply positiveOrNull_none; trivial; apply positiveOrNull_none; trivial.
  - destruct (periodicData_In _ _ Hp) as (seg & d & Hb & ->).
    exists seg, d. split; [exact Hb|].
    assert (Hsub : Forall nonNegative (seg ++ [d])).
    { destruct Hb as (pre & post & -> & _).
      apply Forall_app in Hnn. destruct Hnn as [_ H2].
      apply Forall_app in H2. destruct H2 as [H2 H3].
      apply Forall_app. split; trivial.
      inversion H3; subst. constructor; [assumption | constructor]. }
    destruct (nonNegative_totals Hsub) as (_ & _ & Ho & Hof).
    simpl. repeat split; trivial;
      apply positiveOrNull_none; trivial; apply positiveOrNull_none; trivial.
Qed.

Lemma orchard_values_absent_iff_zero_witness :
  (forall p, In p (cumulativeData monthSamples) ->
     exists pre d post,
       monthSamples = pre ++ d :: post /\
       p_height p = height d /\
       p_sapling p = total sapling (pre ++ [d]) /\
       (p_orchard p = None <-> total orchard (pre ++ [d]) = 0) /\
       (p_orchard_filter p = None <-> total orchard_filter (pre ++ [d]) = 0)) /\
  (forall p, In p (periodicData monthSamples) ->
     exists seg d,
       isBucket monthSamples seg d /\
       p_height p = height d /\
       p_sapling p = total sapling (seg ++ [d]) /\
       (p_orchard p = None <-> total orchard (seg ++ [d]) = 0) /\
       (p_orchard_filter p = None <-> total orchard_filter (seg ++ [d]) = 0)).
Proof.
  apply (orchard_values_absent_iff_zero (samples := monthSamples)).
  unfold monthSamples, nonNegative. repeat constructor; simpl; lia.
Defined.

(** ** The two grids *)

Lemma onMonth_onPeriod h : onMonth h = true -> onPeriod h = true.
Proof.
  unfold onMonth, onPeriod, MONTH_PERIOD, BLOCKS_PERIOD.
  rewrite !Z.eqb_eq. intros H.
  apply Z.rem_divide in H; [|discriminate].
  apply Z.rem_divide; [discriminate|].
  apply Z.divide_trans with 32256; trivial.
  exists 4. reflexivity.
Qed.

(** ** Loading *)

Lemma asData_length items samples :
  asData items = Some samples -> List.length samples = List.length items.
Proof.
  revert samples; induction items as [|v items IH]; intros samples; simpl.
  - intros [= <-]. reflexivity.
  - destruct (asDatum v); [|discriminate].
    destruct (asData items) as [ds|]; [|discriminate].
    intros [= <-]. simpl. f_equal. now apply IH.
Qed.

(** C5, as stated, fails: a response with status 200 whose body parses but
    is not an array of samples (its record lacks four of the five fields)
    does not make the load fail.  The component holds no error, shows the
    chart and keeps the parsed value as its data. *)
Lemma malformed_records_load_without_error :
  requestSucceeds (serves truncatedBody "data.json") = true /\
  bodyMatchesShape (serves truncatedBody "data.json") = false /\
  loadFailed (loadEffect (serves truncatedBody) "data.json" initialState) = false /\
  render (loadEffect (serves truncatedBody) "data.json" initialState) = CanvasView /\
  chartData (loadEffect (serves truncatedBody) "data.json" initialState) =
    truncatedBody.
Proof. repeat split. Qed.

(** C5, amended.  Starting without an error, the load fails (the component
    holds the error and shows it) exactly when the request does not succeed
    (the transport fails or the status is not ok) or the body is not
    well-formed JSON; the error names which.  Otherwise the component shows
    the chart and its data is the parsed body as it came, unchecked: when
    the body is an array of samples the data is the full sequence, one
    record per element, in order. *)
Theorem load_fails_iff_request_or_parse_fails fetch url st :
  error st = None ->
  loadFailed (loadEffect fetch url st) =
    negb (requestSucceeds (fetch url) && bodyWellFormed (fetch url)) /\
  (forall e, render (loadEffect fetch url st) = ErrorView e <->
     (exists reason, fetch url = Rejected reason /\ e = TransportError reason) \/
     (exists r, fetch url = Resolved r /\ ok r = false /\ e = HttpError (status r)) \/
     (exists r, fetch url = Resolved r /\ ok r = true /\ body r = None /\
                e = SyntaxError)) /\
  (forall r v, fetch url = Resolved r -> ok r = true -> body r = Some v ->
     render (loadEffect fetch url st) = CanvasView /\
     chartData (loadEffect fetch url st) = v /\
     forall items samples,
       v = JArray items -> asData items = Some samples ->
       asSamples (chartData (loadEffect fetch url st)) = Some samples /\
       List.length samples = List.length items).
Proof.
  intros He.
  split; [|split].
  - unfold loadFailed, loadEffect, fetchTransactionData,
      requestSucceeds, bodyWellFormed.
    destruct (fetch url) as [reason | r]; simpl; [reflexivity|].
    destruct (ok r); simpl; [|reflexivity].
    destruct (body r); simpl; rewrite ?He; reflexivity.
  - intros e. unfold render, loadEffect, fetchTransactionData. split.
    + destruct (fetch url) as [reason | r]; simpl.
      * intros [= <-]. left. now exists reason.
      * destruct (ok r) eqn:Hok; simpl.
        -- destruct (body r) eqn:Hb; simpl.
           ++ rewrite He. discriminate.
           ++ intros [= <-]. right; right. now exists r.
        -- intros [= <-]. right; left. now exists r.
    + intros [(reason & -> & ->)
             | [(r & -> & Hok & ->) | (r & -> & Hok & Hb & ->)]];
        simpl; trivial.
      * now rewrite Hok.
      * now rewrite Hok, Hb.
  - intros r v Hr Hok Hb.
    assert (Hload : loadEffect fetch url st = mkState v false None).
    { unfold loadEffect, fetchTransactionData.
      rewrite Hr, Hok, Hb. simpl.
      unfold setIsLoading, setChartData. simpl. now rewrite He. }
    rewrite Hload. simpl. repeat split.
    + subst v. assumption.
    + eapply asData_length; eassumption.
Qed.

Lemma load_fails_iff_request_or_parse_fails_witness :
  loadFailed (loadEffect (serves sampleBody) "data.json" initialState) =
    negb (requestSucceeds (serves sampleBody "data.json")
          && bodyWellFormed (serves sampleBody "data.json")) /\
  asSamples (chartData (loadEffect (serves sampleBody) "data.json" initialState)) =
    Some [ mkDatum 0 10 2 0 0; mkDatum 8064 10 2 5 0 ] /\
  render (loadEffect (fun _ => Resolved (mkResponse false 404 None))
                     "data.json" initialState) = ErrorView (HttpError 404).
Proof.
  pose proof (@load_fails_iff_request_or_parse_fails
                (serves sampleBody) "data.json" initialState eq_refl)
    as (Hfail & _ & Hok).
  pose proof (@load_fails_iff_request_or_parse_fails
                (fun _ => Resolved (mkResponse false 404 None))
                "data.json" initialState eq_refl)
    as (_ & Herr & _).
  split; [exact Hfail|]. split.
  - destruct (Hok (mkResponse true 200 (Some sampleBody)) sampleBody
                  eq_refl eq_refl eq_refl) as (_ & _ & Hdata).
    exact (proj1 (Hdata _ _ eq_refl eq_refl)).
  - apply (proj2 (Herr (HttpError 404))).
    right; left. exists (mkResponse false 404 None).
    repeat split.
Defined.

(** * Further properties of the component *)

(** ** The heights on the x-axis *)

Lemma periodicData_heights samples :
  map p_height (periodicData samples) = filter onMonth (map height samples).
Proof.
  unfold periodicData.
  induction samples as [|d samples IH] using rev_ind; [reflexivity|].
  rewrite periodLoop_snoc, map_app, filter_app. simpl.
  unfold periodStep.
  destruct (onMonth (height d)); simpl.
  - rewrite map_app, IH. reflexivity.
  - rewrite IH, app_nil_r. reflexivity.
Qed.

Lemma aggregated_heights samples cumulative :
  map p_height (aggregated samples cumulative) =
  filter (onGrid cumulative) (map height samples).
Proof.
  destruct cumulative; simpl.
  - apply cumulativeData_heights.
  - apply periodicData_heights.
Qed.

Lemma map_filter_heights (f : Z -> bool) (points : list ChartPoint) :
  map p_height (filter (fun p => f (p_height p)) points) =
  filter f (map p_height points).
Proof.
  induction points as [|p points IH]; simpl; [reflexivity|].
  destruct (f (p_height p)); simpl; now rewrite IH.
Qed.

Lemma filter_filter (A : Type) (f g : A -> bool) (l : list A) :
  filter f (filter g l) = filter (fun x => g x && f x) l.
Proof.
  induction l as [|x l IH]; simpl; [reflexivity|].
  destruct (g x); simpl; [destruct (f x)|]; now rewrite IH.
Qed.

(** X1.  The heights of the points handed to the chart are exactly the
    heights of the input that are on the grid of the mode (multiples of
    8064 in cumulative mode, of 32256 otherwise) and, when the pool is
    orchard, not below 1687104; they come in input order, each as often as
    it occurs in the input. *)
Theorem handed_heights_are_grid_heights samples pool cumulative :
  map p_height (chartDataPeriod samples pool cumulative) =
  filter (fun h =>
            (Z.rem h (if cumulative then 8064 else 32256) =? 0)
            && (negb (String.eqb pool "orchard") || (1687104 <=? h)))
         (map height samples).
Proof.
  unfold chartDataPeriod.
  assert (G : forall h, onGrid cumulative h =
                        (Z.rem h (if cumulative then 8064 else 32256) =? 0)).
  { intros h. now destruct cumulative. }
  destruct (String.eqb pool "orchard"); simpl.
  - rewrite (map_filter_heights (fun h => ORCHARD_ACTIVATION <=? h)).
    rewrite aggregated_heights, filter_filter.
    apply filter_ext. intros h. now rewrite G.
  - rewrite aggregated_heights.
    apply filter_ext. intros h. now rewrite G, andb_true_r.
Qed.

(** X2.  In either mode the aggregation is empty exactly when no sample is
    on the grid of the mode; in particular it is empty for the empty
    input, and for weekly samples that miss every month boundary in
    periodic mode. *)
Theorem aggregation_empty_iff_no_grid_sample samples cumulative :
  aggregated samples cumulative = [] <->
  Forall (fun d => Z.rem (height d) (if cumulative then 8064 else 32256) <> 0)
         samples.
Proof.
  assert (E : aggregated samples cumulative = [] <->
              filter (onGrid cumulative) (map height samples) = []).
  { rewrite <- aggregated_heights. split.
    - now intros ->.
    - now destruct (aggregated samples cumulative). }
  rewrite E. clear E.
  induction samples as [|d l IH]; simpl.
  - split; [constructor | reflexivity].
  - assert (G : onGrid cumulative (height d) = true <->
                Z.rem (height d) (if cumulative then 8064 else 32256) = 0).
    { destruct cumulative; apply Z.eqb_eq. }
    destruct (onGrid cumulative (height d)) eqn:Hd.
    + split; [discriminate|].
      intros H. inversion H; subst.
      exfalso. apply H2. now apply G.
    + rewrite IH. split.
      * intros H. constructor; trivial.
        intros K. apply G in K. discriminate.
      * intros H. now inversion H.
Qed.

(** X8.  When the heights of the samples increase strictly, so do the
    heights of the points handed to the chart, for every pool and in both
    modes. *)
Theorem handed_heights_stay_increasing samples pool cumulative :
  StronglySorted Z.lt (map height samples) ->
  StronglySorted Z.lt (map p_height (chartDataPeriod samples pool cumulative)).
Proof.
  intros H. unfold chartDataPeriod.
  destruct (String.eqb pool "orchard").
  - rewrite (map_filter_heights (fun h => ORCHARD_ACTIVATION <=? h)).
    rewrite aggregated_heights.
    now apply StronglySorted_filter, StronglySorted_filter.
  - rewrite aggregated_heights. now apply StronglySorted_filter.
Qed.

Lemma handed_heights_stay_increasing_witness :
  StronglySorted Z.lt
    (map p_height (chartDataPeriod activationSamples "orchard" true)).
Proof.
  apply (@handed_heights_stay_increasing activationSamples "orchard" true).
  repeat constructor.
Defined.

(** ** Growing inputs *)

(** X3.  Samples appended to the input never change the points already
    aggregated, in either mode: the output for the longer input is the
    output for the shorter one followed by the points of the new samples,
    which are built from the sums the first part left behind (all totals in
    cumulative mode, the totals since the last month boundary otherwise). *)
Theorem appended_samples_extend_the_output samples more :
  cumulativeData (samples ++ more) =
    cumulativeData samples
      ++ filter (fun p => Z.rem (p_height p) 8064 =? 0)
                (chartDataSumFrom (totals samples) more) /\
  periodicData (samples ++ more) =
    periodicData samples
      ++ pushed (periodLoop
                   (mkPeriodState (sums (periodLoop initPeriodState samples)) [])
                   more).
Proof.
  split.
  - unfold cumulativeData, chartDataSum.
    rewrite chartDataSumFrom_app, filter_app.
    now rewrite addDatum_fold, plusSums_zero_l.
  - unfold periodicData.
    now rewrite periodLoop_app, periodLoop_pushed.
Qed.

(** X4.  In periodic mode an input that is cut right after a month boundary
    is aggregated piece by piece: the output of the whole is the output of
    the part up to the boundary followed by the output of the rest taken on
    its own. *)
Theorem periodic_output_splits_at_boundaries pre rest :
  closedPrefix pre ->
  periodicData (pre ++ rest) = periodicData pre ++ periodicData rest.
Proof.
  intros Hc. unfold periodicData.
  rewrite periodLoop_app, periodLoop_pushed.
  now rewrite (closedPrefix_sums Hc).
Qed.

Lemma periodic_output_splits_at_boundaries_witness :
  periodicData ([mkDatum 0 10 2 0 0]
                  ++ [mkDatum 8064 10 2 5 0; mkDatum 32256 7 1 3 0]) =
  periodicData [mkDatum 0 10 2 0 0]
    ++ periodicData [mkDatum 8064 10 2 5 0; mkDatum 32256 7 1 3 0].
Proof.
  apply (@periodic_output_splits_at_boundaries
           [mkDatum 0 10 2 0 0]
           [mkDatum 8064 10 2 5 0; mkDatum 32256 7 1 3 0]).
  right. exists [], (mkDatum 0 10 2 0 0). split; reflexivity.
Defined.

(** ** Values on the chart *)

Lemma chartDataPeriod_In samples pool cumulative p :
  In p (chartDataPeriod samples pool cumulative) ->
  In p (aggregated samples cumulative).
Proof.
  unfold chartDataPeriod.
  destruct (String.eqb pool "orchard"); trivial.
  intros H. apply filter_In in H. tauto.
Qed.

(** Every aggregated point is built from sums: the running sums of a prefix
    in cumulative mode, the sums of a bucket otherwise. *)
Lemma aggregated_In samples cumulative p :
  In p (aggregated samples cumulative) ->
  exists l h,
    incl l samples /\
    p = (if cumulative then sumPoint h (totals l)
         else bucketPoint h (totals l)).
Proof.
  destruct cumulative; simpl; intros Hp.
  - destruct (cumulativeData_In _ _ Hp) as (pre & d & post & -> & _ & ->).
    exists (pre ++ [d]), (height d). split; trivial.
    intros x Hx. apply in_app_or in Hx. apply in_or_app.
    destruct Hx as [Hx | [<- | []]]; [now left | right; now left].
  - destruct (periodicData_In _ _ Hp)
      as (seg & d & (pre & post & -> & _) & ->).
    exists (seg ++ [d]), (height d). split; trivial.
    intros x Hx. apply in_or_app. right.
    apply in_app_or in Hx. apply in_or_app.
    destruct Hx as [Hx | [<- | []]]; [now left | right; now left].
Qed.

Lemma positiveOrNull_some x v w :
  positiveOrNull x v = Some w -> 0 < x /\ w = v.
Proof.
  unfold positiveOrNull. destruct (0 <? x) eqn:E; [|discriminate].
  apply Z.ltb_lt in E. intros [= <-]. now split.
Qed.

(** X6.  An orchard value that is present is strictly positive, whatever
    the input (negative deltas included): the chart never plots an orchard
    total of zero or below, in either mode and for every pool.  In
    cumulative mode the same holds for [orchard_filter]. *)
Theorem present_orchard_values_are_positive samples pool cumulative p :
  In p (chartDataPeriod samples pool cumulative) ->
  (forall v, p_orchard p = Some v -> 0 < v) /\
  (cumulative = true -> forall v, p_orchard_filter p = Some v -> 0 < v).
Proof.
  intros Hp. apply chartDataPeriod_In, aggregated_In in Hp.
  destruct Hp as (l & h & _ & ->).
  split.
  - intros v. destruct cumulative; simpl; intros Hv;
      apply positiveOrNull_some in Hv; lia.
  - intros -> v. simpl. intros Hv.
    apply positiveOrNull_some in Hv. lia.
Qed.

Lemma present_orchard_values_are_positive_witness :
  (forall v,
     p_orchard (mkPoint 40320 31 6 (Some 10) (Some 1)) = Some v -> 0 < v) /\
  (true = true ->
   forall v,
     p_orchard_filter (mkPoint 40320 31 6 (Some 10) (Some 1)) = Some v ->
     0 < v).
Proof.
  apply (@present_orchard_values_are_positive monthSamples "default" true).
  simpl. right. right. right. left. reflexivity.
Defined.





(** ** The orchard cut on ordered input *)

Lemma filter_all (A : Type) (f : A -> bool) (l : list A) :
  Forall (fun x => f x = true) l -> filter f l = l.
Proof.
  induction 1 as [|x l Hx _ IH]; simpl; [reflexivity|].
  now rewrite Hx, IH.
Qed.

Lemma filter_none (A : Type) (f : A -> bool) (l : list A) :
  Forall (fun x => f x = false) l -> filter f l = [].
Proof.
  induction 1 as [|x l Hx _ IH]; simpl; [reflexivity|].
  now rewrite Hx.
Qed.

(** On points ordered by height, keeping the heights from [t] on is
    dropping the leading points below [t]. *)
Lemma threshold_filter_is_skipn (t : Z) (points : list ChartPoint) :
  StronglySorted Z.le (map p_height points) ->
  filter (fun p => t <=? p_height p) points =
  skipn (List.length (filter (fun p => p_height p <? t) points)) points.
Proof.
  induction points as [|p points IH]; simpl; intros Hs; [reflexivity|].
  inversion Hs as [|? ? Hs' Hall]; subst.
  destruct (p_height p <? t) eqn:E.
  - apply Z.ltb_lt in E.
    replace (t <=? p_height p) with false
      by (symmetry; apply Z.leb_gt; exact E).
    simpl. now apply IH.
  - apply Z.ltb_ge in E.
    replace (t <=? p_height p) with true
      by (symmetry; apply Z.leb_le; exact E).
    assert (Hup : Forall (fun q => t <= p_height q) points).
    { apply Forall_forall. intros q Hq.
      apply (in_map p_height) in Hq.
      rewrite Forall_forall in Hall. specialize (Hall _ Hq). lia. }
    rewrite filter_all, filter_none; trivial.
    + eapply Forall_impl; [|exact Hup]. intros q Hq. now apply Z.ltb_ge.
    + eapply Forall_impl; [|exact Hup]. intros q Hq. now apply Z.leb_le.
Qed.

(** X9.  When the heights of the samples never decrease, the orchard pool
    only cuts the start of the series: the points handed on are the
    aggregated points without a leading run, as long as the number of
    aggregated points below 1687104, and nothing is removed after the first
    point that is kept. *)
Theorem orchard_cut_drops_a_leading_run samples cumulative :
  StronglySorted Z.le (map height samples) ->
  chartDataPeriod samples "orchard" cumulative =
  skipn (List.length (filter (fun p => p_height p <? 1687104)
                             (aggregated samples cumulative)))
        (aggregated samples cumulative).
Proof.
  intros Hs. unfold chartDataPeriod. simpl.
  apply (threshold_filter_is_skipn ORCHARD_ACTIVATION).
  rewrite aggregated_heights. now apply StronglySorted_filter.
Qed.

Lemma orchard_cut_drops_a_leading_run_witness :
  chartDataPeriod activationSamples "orchard" true =
  skipn 2 (aggregated activationSamples true).
Proof.
  apply (@orchard_cut_drops_a_leading_run activationSamples true).
  simpl. repeat constructor; lia.
Defined.

(** ** The data sets *)

Lemma chartSets_cases pool filter points :
  chartSets pool filter points =
  (if String.eqb pool "default" || String.eqb pool "orchard"
   then (if filter then [orchardFilterChart points] else [])
          ++ [orchardChart points]
   else [])
  ++ (if String.eqb pool "default" || String.eqb pool "sapling"
      then (if filter then [saplingFilterChart points] else [])
             ++ [saplingChart points]
      else []).
Proof.
  unfold chartSets.
  destruct (String.eqb pool "default" || String.eqb pool "orchard"),
    (String.eqb pool "default" || String.eqb pool "sapling"), filter;
    reflexivity.
Qed.

(** X10.  Whenever the second effect builds a chart, every data set has
    exactly one value per label of the x-axis, for every pool, mode and
    filter flag; and it builds none while the data is loading or the
    canvas is missing. *)
Theorem data_sets_are_aligned_with_labels
        toString loading hasCanvas samples pool cumulative filter :
  (forall cfg,
     drawEffect toString loading hasCanvas samples pool cumulative filter
       = Some cfg ->
     loading = false /\ hasCanvas = true /\
     Forall (fun s => List.length (data s) = List.length (labels cfg))
            (datasets cfg)) /\
  (loading = false -> hasCanvas = true ->
   drawEffect toString loading hasCanvas samples pool cumulative filter
     <> None).
Proof.
  unfold drawEffect. split.
  - intros cfg. destruct loading, hasCanvas; simpl; try discriminate.
    intros [= <-]. repeat split. simpl.
    rewrite chartSets_cases.
    apply Forall_app; split;
      [destruct (String.eqb pool "default" || String.eqb pool "orchard")
      |destruct (String.eqb pool "default" || String.eqb pool "sapling")];
      destruct filter; repeat constructor; simpl;
      now rewrite !length_map.
  - intros -> ->. simpl. discriminate.
Qed.

(** X11.  The filter flag only adds series, and puts each one right before
    the series it belongs to: the data sets built without the flag are
    those built with it minus the two filtered ones, in the same order and
    with the same data; and whenever a filtered data set is in the list,
    the next one is its raw data set (same label without the suffix). *)
Theorem filter_flag_only_adds_filtered_sets pool filter points :
  chartSets pool false points =
    List.filter (fun s => negb (isFilteredSet s)) (chartSets pool true points) /\
  (forall before s after,
     chartSets pool filter points = before ++ s :: after ->
     isFilteredSet s = true ->
     exists raw rest,
       after = raw :: rest /\
       isFilteredSet raw = false /\
       label s = (label raw ++ " Filter")%string).
Proof.
  split.
  - rewrite !chartSets_cases, filter_app.
    destruct (String.eqb pool "default" || String.eqb pool "orchard"),
      (String.eqb pool "default" || String.eqb pool "sapling");
      reflexivity.
  - intros before s after. rewrite chartSets_cases.
    destruct (String.eqb pool "default" || String.eqb pool "orchard"),
      (String.eqb pool "default" || String.eqb pool "sapling"), filter;
      simpl; intros E Hs;
      repeat (destruct before as [|? before]; simpl in E;
              [ injection E as <- <-;
                first [ discriminate Hs
                      | eexists; eexists; repeat split ]
              | try discriminate E; injection E as <- E ]);
      try discriminate E;
      destruct before; discriminate E.
Qed.

(** ** Loading again *)

Lemma loadEffect_cases fetch url st :
  loadEffect fetch url st =
  match fetchTransactionData fetch url with
  | inr v => mkState v false (error st)
  | inl e => mkState (chartData st) false (Some e)
  end.
Proof.
  unfold loadEffect. destruct (fetchTransactionData fetch url); reflexivity.
Qed.

Lemma loadSucceeds_true fetch url :
  loadSucceeds fetch url = true ->
  exists v, fetchTransactionData fetch url = inr v.
Proof.
  unfold loadSucceeds, requestSucceeds, bodyWellFormed, fetchTransactionData.
  destruct (fetch url) as [reason | r]; simpl; [discriminate|].
  destruct (ok r); simpl; [|discriminate].
  destruct (body r) as [v|]; [|discriminate].
  intros _. now exists v.
Qed.

Lemma loadSucceeds_false fetch url :
  loadSucceeds fetch url = false ->
  exists e, fetchTransactionData fetch url = inl e.
Proof.
  unfold loadSucceeds, requestSucceeds, bodyWellFormed, fetchTransactionData.
  destruct (fetch url) as [reason | r]; simpl; [now eexists|].
  destruct (ok r); simpl; [|now eexists].
  destruct (body r) as [v|]; [discriminate | now eexists].
Qed.

(** X12.  An error is never cleared.  When the component already holds an
    error and a later load succeeds, the new data is stored but the old
    error stays, and the component still shows that error instead of the
    chart. *)
Theorem earlier_error_outlives_later_success fetch url st e :
  error st = Some e ->
  loadSucceeds fetch url = true ->
  exists v,
    fetchTransactionData fetch url = inr v /\
    chartData (loadEffect fetch url st) = v /\
    error (loadEffect fetch url st) = Some e /\
    render (loadEffect fetch url st) = ErrorView e.
Proof.
  intros He Hok.
  destruct (loadSucceeds_true _ _ Hok) as [v Hv].
  exists v. rewrite loadEffect_cases, Hv. unfold render. simpl.
  rewrite He. repeat split.
Qed.

Lemma earlier_error_outlives_later_success_witness :
  exists v,
    fetchTransactionData flakyNetwork "good.json" = inr v /\
    chartData (loadEffect flakyNetwork "good.json"
                 (loadEffect flakyNetwork "gone.json" initialState)) = v /\
    error (loadEffect flakyNetwork "good.json"
             (loadEffect flakyNetwork "gone.json" initialState)) =
      Some (TransportError "offline") /\
    render (loadEffect flakyNetwork "good.json"
              (loadEffect flakyNetwork "gone.json" initialState)) =
      ErrorView (TransportError "offline").
Proof.
  apply (@earlier_error_outlives_later_success flakyNetwork "good.json"
           (loadEffect flakyNetwork "gone.json" initialState)
           (TransportError "offline"));
    reflexivity.
Defined.

(** X13.  A failed load keeps the data of the load before it and replaces
    whatever error was held by its own: the samples stay as they were, and
    the component shows the new error. *)
Theorem failed_load_keeps_previous_data fetch url st :
  loadSucceeds fetch url = false ->
  chartData (loadEffect fetch url st) = chartData st /\
  exists e,
    fetchTransactionData fetch url = inl e /\
    error (loadEffect fetch url st) = Some e /\
    render (loadEffect fetch url st) = ErrorView e.
Proof.
  intros Hko.
  destruct (loadSucceeds_false _ _ Hko) as [e He].
  rewrite loadEffect_cases, He. split; [reflexivity|].
  exists e. repeat split.
Qed.

Lemma failed_load_keeps_previous_data_witness :
  chartData (loadEffect flakyNetwork "gone.json"
               (loadEffect flakyNetwork "good.json" initialState)) =
    chartData (loadEffect flakyNetwork "good.json" initialState) /\
  exists e,
    fetchTransactionData flakyNetwork "gone.json" = inl e /\
    error (loadEffect flakyNetwork "gone.json"
             (loadEffect flakyNetwork "good.json" initialState)) = Some e /\
    render (loadEffect flakyNetwork "gone.json"
              (loadEffect flakyNetwork "good.json" initialState)) = ErrorView e.
Proof.
  apply (@failed_load_keeps_previous_data flakyNetwork "gone.json"
           (loadEffect flakyNetwork "good.json" initialState)).
  reflexivity.
Defined.

Lemma loadAll_snoc fetch urls url st :
  loadAll fetch (urls ++ [url]) st = loadEffect fetch url (loadAll fetch urls st).
Proof. unfold loadAll. now rewrite fold_left_app. Qed.

(** X14.  Over any series of loads, the component ends without an error
    exactly when it started without one and every load of the series
    succeeded: one failure anywhere leaves the component showing an error
    for good. *)
Theorem no_error_iff_every_load_succeeded fetch urls st :
  error (loadAll fetch urls st) = None <->
  error st = None /\ Forall (fun url => loadSucceeds fetch url = true) urls.
Proof.
  induction urls as [|url urls IH] using rev_ind.
  - simpl. split; [intros H; split; [exact H | constructor] | tauto].
  - rewrite loadAll_snoc, loadEffect_cases.
    destruct (loadSucceeds fetch url) eqn:Hu.
    + destruct (loadSucceeds_true _ _ Hu) as [v ->]. simpl.
      rewrite IH. split.
      * intros [H1 H2]. split; trivial.
        apply Forall_app. split; trivial. now repeat constructor.
      * intros [H1 H2]. apply Forall_app in H2. tauto.
    + destruct (loadSucceeds_false _ _ Hu) as [e ->]. simpl.
      split; [discriminate|].
      intros [_ H2]. apply Forall_app in H2. destruct H2 as [_ H2].
      inversion H2; subst. congruence.
Qed.

(** X15.  Over any series of loads, the data the component ends with is
    the body of the last load that succeeded, whatever failed after it and
    whatever was loaded before. *)
Theorem data_is_from_last_successful_load fetch before url after st v :
  fetchTransactionData fetch url = inr v ->
  Forall (fun u => loadSucceeds fetch u = false) after ->
  chartData (loadAll fetch (before ++ url :: after) st) = v.
Proof.
  intros Hv.
  induction after as [|u after IH] using rev_ind; intros Hafter.
  - rewrite loadAll_snoc, loadEffect_cases, Hv. reflexivity.
  - apply Forall_app in Hafter. destruct Hafter as [Hafter Hu].
    inversion Hu as [|? ? Hko _]; subst.
    replace (before ++ url :: after ++ [u])
      with ((before ++ url :: after) ++ [u])
      by (rewrite <- app_assoc; reflexivity).
    rewrite loadAll_snoc, loadEffect_cases.
    destruct (loadSucceeds_false _ _ Hko) as [e ->]. simpl.
    now apply IH.
Qed.

Lemma data_is_from_last_successful_load_witness :
  chartData (loadAll flakyNetwork
               (["empty.json"%string; "gone.json"%string]
                  ++ "good.json"%string :: ["lost.json"%string])%list
               initialState) = sampleBody.
Proof.
  apply (@data_is_from_last_successful_load flakyNetwork
           ["empty.json"; "gone.json"]%string "good.json" ["lost.json"]%string
           initialState sampleBody).
  - reflexivity.
  - repeat constructor.
Defined.

(** * Sums of doubles *)

Module DoubleFacts.

Import Double.
Local Open Scope Q_scope.

(** ** One operation *)

Lemma exactAdd_spec x y :
  exactAdd x y = true ->
  isFinite x = true /\ isFinite y = true /\ isFinite (add x y) = true /\
  value (add x y) == value x + value y.
Proof.
  unfold exactAdd. rewrite !andb_true_iff, Qeq_bool_iff. tauto.
Qed.

Lemma exactSub_spec x y :
  exactSub x y = true ->
  isFinite x = true /\ isFinite y = true /\ isFinite (sub x y) = true /\
  value (sub x y) == value x - value y.
Proof.
  unfold exactSub. rewrite !andb_true_iff, Qeq_bool_iff. tauto.
Qed.

Lemma mantissa_positive m e : 0 < inject_Z (Zpos m) * Qpower 2 e.
Proof.
  apply Qmult_lt_0_compat.
  - reflexivity.
  - apply Qpower_0_lt. reflexivity.
Qed.

(** On a finite double the test [x > 0] is the test on its value. *)
Lemma gt0_value x :
  isFinite x = true -> (gt0 x = true <-> 0 < value x).
Proof.
  destruct x as [s | s | | s m e]; simpl; try discriminate; intros _.
  - unfold gt0, SFltb. simpl. split; [discriminate|].
    intros H. exfalso. revert H. apply Qlt_irrefl.
  - pose proof (mantissa_positive m e) as Hpos.
    unfold gt0, SFltb. destruct s; simpl.
    + split; [discriminate|]. intros H. exfalso.
      assert (E : inject_Z (Z.neg m) * Qpower 2 e ==
                  - (inject_Z (Z.pos m) * Qpower 2 e)).
      { change (Z.neg m) with (- Z.pos m)%Z.
        rewrite inject_Z_opp. ring. }
      rewrite E in H. lra.
    + split; trivial.
Qed.

Lemma acc_addDatum q s d :
  acc q (addDatum s d) = add (acc q s) (delta q d).
Proof. destruct q; reflexivity. Qed.

Lemma exactStep_spec s d q :
  exactStep s d = true -> exactAdd (acc q s) (delta q d) = true.
Proof.
  unfold exactStep. rewrite !andb_true_iff.
  destruct q; tauto.
Qed.

(** An exact step keeps the sums finite and adds the values. *)
Lemma exactStep_value s d q :
  exactStep s d = true ->
  isFinite (acc q (addDatum s d)) = true /\
  value (acc q (addDatum s d)) == value (acc q s) + value (delta q d).
Proof.
  intros H. apply (exactStep_spec _ _ q) in H.
  apply exactAdd_spec in H. rewrite acc_addDatum. tauto.
Qed.

Lemma exactStep_good s d :
  exactStep s d = true -> goodSums s -> nonNegative d ->
  goodSums (addDatum s d).
Proof.
  intros H Hs Hd q.
  destruct (exactStep_value _ _ q H) as [Hf Hv].
  destruct (Hs q) as [_ Hs0]. destruct (Hd q) as [_ Hd0].
  split; trivial. lra.
Qed.

Lemma goodSums_zero : goodSums zeroSums.
Proof. intros q. destruct q; split; simpl; trivial; apply Qle_refl. Qed.

Lemma orZero_positiveOrNull x :
  isFinite x = true -> 0 <= value x ->
  orZero (positiveOrNull x x) == value x.
Proof.
  intros Hf Hx. unfold positiveOrNull.
  destruct (gt0 x) eqn:E; simpl; [reflexivity|].
  assert (~ 0 < value x).
  { intros H. apply (gt0_value _ Hf) in H. congruence. }
  lra.
Qed.

(** ** The cumulative loop *)

(** When no addition rounds, the running sums stand for the exact sums of
    the values added. *)
Lemma exact_running_sums l :
  forall s,
    cumulativeExactFrom s l = true ->
    (forall q, isFinite (acc q s) = true) ->
    forall q,
      isFinite (acc q (fold_left addDatum l s)) = true /\
      value (acc q (fold_left addDatum l s)) ==
        value (acc q s) + totalValue q l.
Proof.
  induction l as [|d l IH]; intros s Hex Hfin q; simpl.
  - split; [apply Hfin | lra].
  - simpl in Hex. apply andb_true_iff in Hex. destruct Hex as [Hstep Hrest].
    destruct (IH (addDatum s d) Hrest
                 (fun q0 => proj1 (exactStep_value s d q0 Hstep)) q)
      as [Hf Hv].
    split; [exact Hf|].
    destruct (exactStep_value s d q Hstep) as [_ Hv1]. lra.
Qed.

Lemma totalValue_nonneg q l :
  Forall nonNegative l -> 0 <= totalValue q l.
Proof.
  induction 1 as [|d l Hd _ IH]; simpl; [apply Qle_refl|].
  destruct (Hd q) as [_ H0]. lra.
Qed.

Lemma running_points_app s l1 l2 :
  chartDataSumFrom s (l1 ++ l2) =
  chartDataSumFrom s l1 ++ chartDataSumFrom (fold_left addDatum l1 s) l2.
Proof.
  revert s; induction l1 as [|d l1 IH]; intros s; simpl; [reflexivity|].
  now rewrite IH.
Qed.

(** On an input that ends on a month boundary the cumulative series ends
    with the point of the last sample, built from the sums of the whole
    input. *)
Lemma finalRunning_closed samples :
  closedPrefix samples ->
  exists h,
    finalRunning samples = sumPoint h (fold_left addDatum samples zeroSums).
Proof.
  intros [-> | (l & b & -> & Hb)].
  - exists 0%Z. reflexivity.
  - exists (height b). unfold finalRunning, cumulativeData, chartDataSum.
    rewrite running_points_app, filter_app. simpl.
    rewrite (onMonth_onPeriod _ Hb), fold_left_app. simpl.
    apply last_last.
Qed.

Lemma runningTotal_sumPoint q h s :
  goodSums s -> runningTotal q (sumPoint h s) == value (acc q s).
Proof.
  intros Hs. destruct q; simpl; try reflexivity.
  - destruct (Hs Orchard). now apply orZero_positiveOrNull.
  - destruct (Hs OrchardFilter). now apply orZero_positiveOrNull.
Qed.
(** ** The periodic loop *)

(** What the loop does from a state is what it does from the sums of the
    state, after what the state had pushed. *)
Lemma periodLoop_frame l :
  forall st,
    periodLoop st l =
    mkPeriodState
      (sums (periodLoop (mkPeriodState (sums st) []) l))
      (pushed st ++ pushed (periodLoop (mkPeriodState (sums st) []) l)).
Proof.
  induction l as [|d l IH]; intros st; simpl.
  - destruct st; simpl. now rewrite app_nil_r.
  - rewrite (IH (periodStep st d)).
    rewrite (IH (periodStep (mkPeriodState (sums st) []) d)).
    unfold periodStep; simpl.
    destruct (onMonth (height d)); simpl; trivial.
    now rewrite <- app_assoc.
Qed.

Lemma periodLoop_cons s d l :
  periodLoop (mkPeriodState s []) (d :: l) =
  if onMonth (height d)
  then mkPeriodState
         (sums (periodLoop (mkPeriodState zeroSums []) l))
         (bucketPoint (height d) (addDatum s d)
            :: pushed (periodLoop (mkPeriodState zeroSums []) l))
  else periodLoop (mkPeriodState (addDatum s d) []) l.
Proof.
  change (periodLoop (mkPeriodState s []) (d :: l))
    with (periodLoop (periodStep (mkPeriodState s []) d) l).
  unfold periodStep; simpl.
  destruct (onMonth (height d)); trivial.
  now rewrite periodLoop_frame.
Qed.

(** The total a bucket accumulated is read back exactly from its point
    when neither subtraction rounds. *)
Lemma bucketTotal_bucketPoint q h s :
  goodSums s -> exactBucket s = true ->
  bucketTotal q (bucketPoint h s) == value (acc q s).
Proof.
  intros Hs Hb. unfold exactBucket in Hb.
  apply andb_true_iff in Hb. destruct Hb as [Hsub Hosub].
  apply exactSub_spec in Hsub. destruct Hsub as (_ & _ & _ & Hsub).
  destruct (Hs Orchard) as [HfO HO].
  destruct (Hs OrchardFilter) as [HfOF HOF].
  destruct q; simpl in *.
  - reflexivity.
  - lra.
  - now apply orZero_positiveOrNull.
  - unfold positiveOrNull at 1.
    destruct (gt0 (orchardFilterSum s)) eqn:E.
    + apply exactSub_spec in Hosub. destruct Hosub as (_ & _ & _ & Hosub).
      pose proof (orZero_positiveOrNull _ HfO HO) as Hz.
      simpl. lra.
    + assert (~ 0 < value (orchardFilterSum s)).
      { intros H. apply (gt0_value _ HfOF) in H. congruence. }
      lra.
Qed.

(** What was pushed plus what is still in the sums is what came in, as
    long as nothing rounds. *)
Lemma periodLoop_conserves q l :
  forall s,
    periodicExactFrom s l = true ->
    Forall nonNegative l ->
    goodSums s ->
    sumQ (map (bucketTotal q) (pushed (periodLoop (mkPeriodState s []) l)))
      + value (acc q (sums (periodLoop (mkPeriodState s []) l)))
    == value (acc q s) + totalValue q l.
Proof.
  induction l as [|d l IH]; intros s Hex Hnn Hs.
  - simpl. lra.
  - inversion Hnn as [|? ? Hd Hl]; subst.
    simpl in Hex. apply andb_true_iff in Hex. destruct Hex as [Hstep Hrest].
    pose proof (exactStep_good Hstep Hs Hd) as Hs'.
    destruct (exactStep_value s d q Hstep) as [_ Hv].
    rewrite periodLoop_cons.
    destruct (onMonth (height d)).
    + apply andb_true_iff in Hrest. destruct Hrest as [Hb Hrest].
      pose proof (IH zeroSums Hrest Hl goodSums_zero) as H0.
      pose proof (bucketTotal_bucketPoint q (height d) Hs' Hb) as Hp.
      assert (Hz : value (acc q zeroSums) == 0) by (destruct q; reflexivity).
      simpl. lra.
    + pose proof (IH (addDatum s d) Hrest Hl Hs') as H0.
      simpl. lra.
Qed.

Lemma periodLoop_last st l d :
  periodLoop st (l ++ [d]) = periodStep (periodLoop st l) d.
Proof. unfold periodLoop. now rewrite fold_left_app. Qed.

Lemma sums_after_boundary pre :
  closedPrefix pre ->
  sums (periodLoop initPeriodState pre) = zeroSums.
Proof.
  intros [-> | (l & b & -> & Hb)]; [reflexivity|].
  rewrite periodLoop_last. unfold periodStep. now rewrite Hb.
Qed.

(** ** Conservation *)

(** C3, as stated, fails: the sums are sums of doubles.  The samples at
    heights 0, 8064 and 32256 with sapling amounts 2^53, 1 and 1 have no
    negative delta and end on a month boundary.  Periodic mode gives the
    buckets 2^53 and 2, which add up to 2^53 + 2; cumulative mode adds 1
    twice to 2^53, which rounds back to 2^53 each time, so its final
    running total is 2^53. *)
Lemma rounding_breaks_conservation :
  Forall nonNegative roundingSamples /\
  partitionsCleanly roundingSamples /\
  map p_sapling (periodicData roundingSamples) =
    [ ofZ 9007199254740992; ofZ 2 ] /\
  p_sapling (finalRunning roundingSamples) = ofZ 9007199254740992 /\
  sumQ (map (bucketTotal Sapling) (periodicData roundingSamples))
    == inject_Z 9007199254740994 /\
  runningTotal Sapling (finalRunning roundingSamples)
    == inject_Z 9007199254740992 /\
  runningTotal Sapling (finalRunning roundingSamples)
    < sumQ (map (bucketTotal Sapling) (periodicData roundingSamples)).
Proof.
  split.
  { repeat constructor; destruct q; vm_compute; trivial;
      intros H; discriminate H. }
  split.
  { right. exists [saplingOnly 0 9007199254740992; saplingOnly 8064 1],
                  (saplingOnly 32256 1).
    split; reflexivity. }
  repeat split; vm_compute; reflexivity.
Qed.

(** C3, amended.  For samples without negative deltas that end on a month
    boundary, and on which no addition of the two loops and no subtraction
    of a pushed point rounds (operands and results finite, results exact),
    the bucket totals of periodic mode add up to the final running totals
    of cumulative mode, quantity by quantity: sapling, filtered sapling (a
    bucket's filtered total is its sapling total minus the complement the
    point carries), orchard (an absent value counting for nothing) and
    filtered orchard.  Each is the exact total of the field over the
    input. *)
Theorem periodic_buckets_sum_to_cumulative_total samples :
  Forall nonNegative samples ->
  partitionsCleanly samples ->
  cumulativeExact samples = true ->
  periodicExact samples = true ->
  forall q,
    sumQ (map (bucketTotal q) (periodicData samples))
      == runningTotal q (finalRunning samples) /\
    runningTotal q (finalRunning samples) == totalValue q samples.
Proof.
  intros Hnn Hclean Hcum Hper q.
  assert (Hfinal : runningTotal q (finalRunning samples)
                   == totalValue q samples).
  { destruct (finalRunning_closed Hclean) as [h ->].
    assert (Hrun : forall q0,
              isFinite (acc q0 (fold_left addDatum samples zeroSums)) = true /\
              value (acc q0 (fold_left addDatum samples zeroSums)) ==
                value (acc q0 zeroSums) + totalValue q0 samples).
    { apply exact_running_sums; trivial.
      intros q0. apply goodSums_zero. }
    assert (Hz : forall q0, value (acc q0 zeroSums) == 0)
      by (intros q0; destruct q0; reflexivity).
    rewrite runningTotal_sumPoint.
    - destruct (Hrun q) as [_ Hv]. specialize (Hz q). lra.
    - intros q0. destruct (Hrun q0) as [Hf Hv]. split; trivial.
      pose proof (totalValue_nonneg q0 Hnn). specialize (Hz q0). lra.
  }
  split; [|exact Hfinal].
  pose proof (periodLoop_conserves q Hper Hnn goodSums_zero) as H.
  fold initPeriodState in H.
  rewrite (sums_after_boundary Hclean) in H.
  fold (periodicData samples) in H.
  assert (Hz : value (acc q zeroSums) == 0) by (destruct q; reflexivity).
  lra.
Qed.

Lemma periodic_buckets_sum_to_cumulative_total_witness :
  (sumQ (map (bucketTotal Sapling) (periodicData closedSamples))
     == runningTotal Sapling (finalRunning closedSamples) /\
   runningTotal Sapling (finalRunning closedSamples) == inject_Z 27) /\
  (sumQ (map (bucketTotal SaplingFilter) (periodicData closedSamples))
     == runningTotal SaplingFilter (finalRunning closedSamples) /\
   runningTotal SaplingFilter (finalRunning closedSamples) == inject_Z 5) /\
  (sumQ (map (bucketTotal Orchard) (periodicData closedSamples))
     == runningTotal Orchard (finalRunning closedSamples) /\
   runningTotal Orchard (finalRunning closedSamples) == inject_Z 8) /\
  (sumQ (map (bucketTotal OrchardFilter) (periodicData closedSamples))
     == runningTotal OrchardFilter (finalRunning closedSamples) /\
   runningTotal OrchardFilter (finalRunning closedSamples) == inject_Z 2).
Proof.
  assert (Hnn : Forall nonNegative closedSamples).
  { repeat constructor; destruct q; vm_compute; trivial;
      intros H; discriminate H. }
  assert (Hclean : partitionsCleanly closedSamples).
  { right. exists [ mkDatum 0 (ofZ 10) (ofZ 2) zero zero;
                    mkDatum 8064 (ofZ 10) (ofZ 2) (ofZ 5) zero ],
                  (mkDatum 32256 (ofZ 7) (ofZ 1) (ofZ 3) (ofZ 2)).
    split; reflexivity. }
  pose proof (@periodic_buckets_sum_to_cumulative_total closedSamples
                Hnn Hclean eq_refl eq_refl) as H.
  repeat split; try apply (proj1 (H _)); vm_compute; reflexivity.
Defined.

Lemma complement_fields_sum (points : list ChartPoint) :
  sumQ (map (fun p => value (p_sapling_filter p)) points) ==
  sumQ (map (bucketTotal Sapling) points)
    - sumQ (map (bucketTotal SaplingFilter) points).
Proof.
  induction points as [|p points IH]; simpl; lra.
Qed.

(** X16.  The filtered sapling values as emitted are complements: over an
    input without negative deltas that ends on a month boundary and on
    which nothing rounds in the periodic loop, they add up to the sapling
    total minus the filtered sapling total of the input. *)
Theorem periodic_sapling_filter_fields_sum samples :
  Forall nonNegative samples ->
  partitionsCleanly samples ->
  periodicExact samples = true ->
  sumQ (map (fun p => value (p_sapling_filter p)) (periodicData samples)) ==
  totalValue Sapling samples - totalValue SaplingFilter samples.
Proof.
  intros Hnn Hclean Hper.
  pose proof (periodLoop_conserves Sapling Hper Hnn goodSums_zero) as H1.
  pose proof (periodLoop_conserves SaplingFilter Hper Hnn goodSums_zero) as H2.
  fold initPeriodState in H1, H2.
  rewrite (sums_after_boundary Hclean) in H1, H2.
  fold (periodicData samples) in H1, H2.
  pose proof (complement_fields_sum (periodicData samples)) as H3.
  simpl in H1, H2. lra.
Qed.

Lemma periodic_sapling_filter_fields_sum_witness :
  sumQ (map (fun p => value (p_sapling_filter p)) (periodicData closedSamples)) ==
  totalValue Sapling closedSamples - totalValue SaplingFilter closedSamples.
Proof.
  apply (@periodic_sapling_filter_fields_sum closedSamples).
  - repeat constructor; destruct q; vm_compute; trivial;
      intros H; discriminate H.
  - right. exists [ mkDatum 0 (ofZ 10) (ofZ 2) zero zero;
                    mkDatum 8064 (ofZ 10) (ofZ 2) (ofZ 5) zero ],
                  (mkDatum 32256 (ofZ 7) (ofZ 1) (ofZ 3) (ofZ 2)).
    split; reflexivity.
  - vm_compute. reflexivity.
Defined.

(** ** A bucket and the running totals *)

Lemma totalValue_app q l1 l2 :
  totalValue q (l1 ++ l2) == totalValue q l1 + totalValue q l2.
Proof.
  induction l1 as [|d l1 IH]; simpl; lra.
Qed.

Lemma cumulativeExactFrom_app l1 l2 :
  forall s,
    cumulativeExactFrom s (l1 ++ l2) =
    cumulativeExactFrom s l1
    && cumulativeExactFrom (fold_left addDatum l1 s) l2.
Proof.
  induction l1 as [|d l1 IH]; intros s; simpl; [reflexivity|].
  now rewrite IH, andb_assoc.
Qed.

Lemma periodLoop_append st l1 l2 :
  periodLoop st (l1 ++ l2) = periodLoop (periodLoop st l1) l2.
Proof. apply fold_left_app. Qed.

Lemma periodLoop_between_boundaries seg :
  offMonth seg ->
  forall st,
    periodLoop st seg =
    mkPeriodState (fold_left addDatum seg (sums st)) (pushed st).
Proof.
  induction 1 as [|d seg Hd _ IH]; intros st; simpl.
  - now destruct st.
  - rewrite IH. unfold periodStep. now rewrite Hd.
Qed.

Lemma periodicExactFrom_app l1 l2 :
  forall s,
    periodicExactFrom s (l1 ++ l2) =
    periodicExactFrom s l1
    && periodicExactFrom (sums (periodLoop (mkPeriodState s []) l1)) l2.
Proof.
  induction l1 as [|d l1 IH]; intros s.
  - reflexivity.
  - rewrite periodLoop_cons.
    change ((d :: l1) ++ l2) with (d :: (l1 ++ l2)).
    cbn [periodicExactFrom].
    destruct (onMonth (height d)); rewrite IH; cbn [sums];
      now rewrite ?andb_assoc.
Qed.

(** The steps of one bucket are steps without a reset. *)
Lemma periodicExactFrom_bucket seg d post :
  offMonth seg -> onMonth (height d) = true ->
  forall s,
    periodicExactFrom s (seg ++ d :: post) = true ->
    cumulativeExactFrom s (seg ++ [d]) = true /\
    exactBucket (fold_left addDatum (seg ++ [d]) s) = true.
Proof.
  intros Hseg Hd.
  induction Hseg as [|x seg Hx _ IH]; intros s; simpl.
  - rewrite Hd, !andb_true_iff. tauto.
  - rewrite Hx, !andb_true_iff. intros [Hstep Hrest].
    destruct (IH _ Hrest). tauto.
Qed.

Lemma kept_points_length s l :
  List.length (filter (fun p => onPeriod (p_height p)) (chartDataSumFrom s l)) =
  List.length (filter (fun d => onPeriod (height d)) l).
Proof.
  revert s; induction l as [|d l IH]; intros s; simpl; [reflexivity|].
  destruct (onPeriod (height d)); simpl; now rewrite IH.
Qed.

(** The cumulative point of a sample on the weekly grid. *)
Lemma cumulative_point_at_rank pre d post :
  onPeriod (height d) = true ->
  nth_error (cumulativeData (pre ++ d :: post)) (weekRank pre) =
  Some (sumPoint (height d) (fold_left addDatum (pre ++ [d]) zeroSums)).
Proof.
  intros Hd. unfold cumulativeData, chartDataSum, weekRank.
  rewrite running_points_app, filter_app. simpl.
  rewrite Hd, fold_left_app.
  rewrite <- (kept_points_length zeroSums pre).
  rewrite nth_error_app2 by apply Nat.le_refl.
  now rewrite Nat.sub_diag.
Qed.

(** The periodic point of a bucket. *)
Lemma bucket_point_is_pushed pre seg d post :
  closedPrefix pre -> offMonth seg -> onMonth (height d) = true ->
  In (bucketPoint (height d) (fold_left addDatum (seg ++ [d]) zeroSums))
     (periodicData (pre ++ seg ++ d :: post)).
Proof.
  intros Hpre Hseg Hd. unfold periodicData.
  rewrite periodLoop_append.
  rewrite (periodLoop_frame (seg ++ d :: post) (periodLoop initPeriodState pre)).
  rewrite (sums_after_boundary Hpre). cbn [pushed].
  apply in_or_app. right.
  rewrite periodLoop_append, (periodLoop_between_boundaries Hseg). cbn [sums pushed].
  rewrite periodLoop_cons, Hd. cbn [pushed].
  left. now rewrite fold_left_app.
Qed.

(** X5.  The two modes agree on what a month holds, as long as nothing
    rounds.  For two consecutive month boundaries [b] and [d] of an input
    without negative deltas on which no addition of the two loops and no
    subtraction of a pushed point rounds, the periodic point of [d] holds,
    in each of the four quantities, the growth of the cumulative series
    between its points at [b] and at [d]: the total the bucket accumulated
    (for the filtered quantities, the raw value minus the complement the
    point carries) is the difference of the two running totals. *)
Theorem bucket_is_growth_of_running_totals pre b seg d post :
  Forall nonNegative (pre ++ b :: seg ++ d :: post) ->
  onMonth (height b) = true ->
  offMonth seg ->
  onMonth (height d) = true ->
  cumulativeExact (pre ++ b :: seg ++ d :: post) = true ->
  periodicExact (pre ++ b :: seg ++ d :: post) = true ->
  exists cb cd p,
    nth_error (cumulativeData (pre ++ b :: seg ++ d :: post)) (weekRank pre)
      = Some cb /\
    nth_error (cumulativeData (pre ++ b :: seg ++ d :: post))
              (weekRank (pre ++ b :: seg)) = Some cd /\
    In p (periodicData (pre ++ b :: seg ++ d :: post)) /\
    p_height cb = height b /\ p_height cd = height d /\
    p_height p = height d /\
    forall q, bucketTotal q p == runningTotal q cd - runningTotal q cb.
Proof.
  intros Hnn Hb Hseg Hd Hcum Hper.
  assert (E1 : pre ++ b :: seg ++ d :: post
               = (pre ++ [b]) ++ seg ++ d :: post)
    by (rewrite <- app_assoc; reflexivity).
  assert (E2 : pre ++ b :: seg ++ d :: post
               = (pre ++ b :: seg) ++ d :: post)
    by (rewrite <- app_assoc; reflexivity).
  assert (E3 : (pre ++ b :: seg) ++ [d] = (pre ++ [b]) ++ seg ++ [d])
    by (rewrite <- !app_assoc; reflexivity).
  assert (E4 : pre ++ b :: seg ++ d :: post
               = ((pre ++ [b]) ++ seg ++ [d]) ++ post)
    by (rewrite <- !app_assoc; reflexivity).
  assert (Hclosed : closedPrefix (pre ++ [b])) by (right; now exists pre, b).
  exists (sumPoint (height b) (fold_left addDatum (pre ++ [b]) zeroSums)),
         (sumPoint (height d)
            (fold_left addDatum ((pre ++ b :: seg) ++ [d]) zeroSums)),
         (bucketPoint (height d) (fold_left addDatum (seg ++ [d]) zeroSums)).
  split; [|split; [|split]].
  - apply cumulative_point_at_rank. now apply onMonth_onPeriod.
  - rewrite E2 at 1. apply cumulative_point_at_rank. now apply onMonth_onPeriod.
  - rewrite E1. now apply bucket_point_is_pushed.
  - repeat split. intros q.
    (* the three runs are exact *)
    assert (Hz : forall q0, value (acc q0 zeroSums) == 0)
      by (intros q0; destruct q0; reflexivity).
    assert (Hfin0 : forall q0, isFinite (acc q0 zeroSums) = true)
      by (intros q0; apply goodSums_zero).
    assert (Hnn_all : Forall nonNegative ((pre ++ [b]) ++ seg ++ [d])).
    { rewrite E4 in Hnn. now apply Forall_app in Hnn. }
    assert (Hnn_b : Forall nonNegative (pre ++ [b])).
    { now apply Forall_app in Hnn_all. }
    assert (Hnn_d : Forall nonNegative (seg ++ [d])).
    { now apply Forall_app in Hnn_all. }
    unfold cumulativeExact in Hcum. rewrite E4 in Hcum.
    rewrite cumulativeExactFrom_app in Hcum.
    apply andb_true_iff in Hcum. destruct Hcum as [Hcum_d _].
    pose proof Hcum_d as Hcum_b.
    rewrite cumulativeExactFrom_app in Hcum_b.
    apply andb_true_iff in Hcum_b. destruct Hcum_b as [Hcum_b _].
    unfold periodicExact in Hper. rewrite E1 in Hper.
    rewrite periodicExactFrom_app in Hper.
    apply andb_true_iff in Hper. destruct Hper as [_ Hper].
    fold initPeriodState in Hper.
    rewrite (sums_after_boundary Hclosed) in Hper.
    destruct (@periodicExactFrom_bucket seg d post Hseg Hd _ Hper) as [Hbk Hbsub].
    pose proof (exact_running_sums _ _ Hcum_b Hfin0) as Rb.
    pose proof (exact_running_sums _ _ Hcum_d Hfin0) as Rd.
    pose proof (exact_running_sums _ _ Hbk Hfin0) as Rk.
    assert (Gb : goodSums (fold_left addDatum (pre ++ [b]) zeroSums)).
    { intros q0. destruct (Rb q0) as [Hf Hv]. split; trivial.
      pose proof (totalValue_nonneg q0 Hnn_b). specialize (Hz q0). lra. }
    assert (Gd : goodSums
                   (fold_left addDatum ((pre ++ [b]) ++ seg ++ [d]) zeroSums)).
    { intros q0. destruct (Rd q0) as [Hf Hv]. split; trivial.
      pose proof (totalValue_nonneg q0 Hnn_all). specialize (Hz q0). lra. }
    assert (Gk : goodSums (fold_left addDatum (seg ++ [d]) zeroSums)).
    { intros q0. destruct (Rk q0) as [Hf Hv]. split; trivial.
      pose proof (totalValue_nonneg q0 Hnn_d). specialize (Hz q0). lra. }
    rewrite E3.
    rewrite (bucketTotal_bucketPoint q (height d) Gk Hbsub).
    rewrite (runningTotal_sumPoint q (height d) Gd).
    rewrite (runningTotal_sumPoint q (height b) Gb).
    destruct (Rb q) as [_ Vb]. destruct (Rd q) as [_ Vd].
    destruct (Rk q) as [_ Vk].
    pose proof (totalValue_app q (pre ++ [b]) (seg ++ [d])) as Ha.
    specialize (Hz q). lra.
Qed.

Lemma bucket_is_growth_of_running_totals_witness :
  exists cb cd p,
    nth_error (cumulativeData closedSamples) 0 = Some cb /\
    nth_error (cumulativeData closedSamples) 2 = Some cd /\
    In p (periodicData closedSamples) /\
    p_height cb = 0%Z /\ p_height cd = 32256%Z /\
    p_height p = 32256%Z /\
    forall q, bucketTotal q p == runningTotal q cd - runningTotal q cb.
Proof.
  apply (@bucket_is_growth_of_running_totals
           [] (mkDatum 0 (ofZ 10) (ofZ 2) zero zero)
           [mkDatum 8064 (ofZ 10) (ofZ 2) (ofZ 5) zero]
           (mkDatum 32256 (ofZ 7) (ofZ 1) (ofZ 3) (ofZ 2)) []).
  - repeat constructor; destruct q; vm_compute; trivial;
      intros H; discriminate H.
  - reflexivity.
  - repeat constructor.
  - reflexivity.
  - vm_compute. reflexivity.
  - vm_compute. reflexivity.
Defined.

End DoubleFacts.

(** * Integers as doubles *)

Module Binary64Facts.

Import Double.

(** ** Shifts *)

Lemma iter_pos_iter (A : Type) (f : A -> A) n : forall x,
  iter_pos f n x = Pos.iter f x n.
Proof.
  induction n as [n IH | n IH |]; intros x; simpl.
  - rewrite !IH. now rewrite !Pos.iter_swap.
  - now rewrite !IH.
  - reflexivity.
Qed.

Lemma iter_pos_nat (A : Type) (f : A -> A) n x :
  iter_pos f n x = Nat.iter (Pos.to_nat n) f x.
Proof. rewrite iter_pos_iter. apply Pos2Nat.inj_iter. Qed.

Lemma shiftLeft_pos_iter p d : Pos.iter xO p d = shiftLeft p (Pos.to_nat d).
Proof. unfold shiftLeft. apply Pos2Nat.inj_iter. Qed.

Lemma shiftLeft_add p j k : shiftLeft (shiftLeft p k) j = shiftLeft p (j + k).
Proof. unfold shiftLeft. now rewrite Nat.iter_add. Qed.

Lemma shiftLeft_digits p k : digits (shiftLeft p k) = digits p + Z.of_nat k.
Proof.
  unfold digits, shiftLeft. induction k as [|k IH]; [simpl; lia|].
  rewrite Nat2Z.inj_succ. simpl Nat.iter. simpl digits2_pos.
  rewrite Pos2Z.inj_succ. lia.
Qed.

Lemma shiftLeft_value p k : Zpos (shiftLeft p k) = Zpos p * 2 ^ Z.of_nat k.
Proof.
  unfold shiftLeft. induction k as [|k IH]; [simpl; lia|].
  rewrite Nat2Z.inj_succ, Z.pow_succ_r by lia. simpl Nat.iter.
  rewrite Pos2Z.inj_xO, IH. ring.
Qed.

Lemma shr_shiftLeft p k :
  Nat.iter k shr_1 (Build_shr_record (Zpos (shiftLeft p k)) false false) =
  Build_shr_record (Zpos p) false false.
Proof.
  induction k as [|k IH]; [reflexivity|].
  rewrite Nat.iter_succ_r. unfold shiftLeft. simpl Nat.iter at 2. simpl shr_1.
  exact IH.
Qed.

Lemma digits_pos p : 0 < digits p.
Proof. unfold digits. lia. Qed.

Lemma fexp_small x : -1021 <= x <= 53 -> fexp prec emax x = x - 53.
Proof. unfold fexp, emin, prec, emax. lia. Qed.

(** ** Rounding an integer that fits *)

(** When the first shift leaves a 53-digit mantissa and drops nothing, the
    rounding returns it as it is. *)
Lemma round_aux_exact s m e m' e' :
  shr_fexp prec emax (Zpos m) e loc_Exact
    = (Build_shr_record (Zpos m') false false, e') ->
  digits m' = 53 -> -1074 <= e' <= 971 ->
  binary_round_aux prec emax s (Zpos m) e loc_Exact = S754_finite s m' e'.
Proof.
  intros H Hd He. unfold binary_round_aux. rewrite H.
  cbn [shr_m loc_of_shr_record round_nearest_even].
  unfold shr_fexp. cbn [Zdigits2 shr_record_of_loc].
  fold (digits m'). rewrite Hd.
  replace (fexp prec emax (53 + e') - e') with 0
    by (unfold fexp, emin, prec, emax; lia).
  cbn [shr shr_m].
  replace (e' <=? emax - prec) with true
    by (symmetry; apply Z.leb_le; unfold emax, prec; lia).
  reflexivity.
Qed.

(** An integer of at most 53 digits, written with [k] more zero bits at
    the exponent [-k], rounds to its double: whatever is shifted out is
    zero. *)
Lemma binary_round_shift s p k :
  digits p <= 53 -> (k <= 1074)%nat ->
  binary_round prec emax s (shiftLeft p k) (- Z.of_nat k) = canon s p.
Proof.
  intros Hd Hk. pose proof (digits_pos p) as Hp.
  unfold binary_round, canon.
  fold (digits (shiftLeft p k)). rewrite shiftLeft_digits.
  replace (digits p + Z.of_nat k + - Z.of_nat k) with (digits p) by lia.
  rewrite fexp_small by lia.
  unfold shl_align.
  destruct (digits p - 53 - - Z.of_nat k) as [|n|d] eqn:E.
  - (* already aligned *)
    apply round_aux_exact.
    + unfold shr_fexp. cbn [Zdigits2 shr_record_of_loc].
      fold (digits (shiftLeft p k)). rewrite shiftLeft_digits.
      replace (digits p + Z.of_nat k + - Z.of_nat k) with (digits p) by lia.
      rewrite fexp_small by lia.
      replace (digits p - 53 - - Z.of_nat k) with 0 by lia.
      cbn [shr]. repeat f_equal; try lia.
    + rewrite shiftLeft_digits. lia.
    + lia.
  - (* shift right, the bits dropped are zeros *)
    apply round_aux_exact.
    + unfold shr_fexp. cbn [Zdigits2 shr_record_of_loc].
      fold (digits (shiftLeft p k)). rewrite shiftLeft_digits.
      replace (digits p + Z.of_nat k + - Z.of_nat k) with (digits p) by lia.
      rewrite fexp_small by lia.
      rewrite E. cbn [shr]. rewrite iter_pos_nat.
      replace k with (Pos.to_nat n + Z.to_nat (53 - digits p))%nat at 1 by lia.
      rewrite <- shiftLeft_add, shr_shiftLeft.
      f_equal. lia.
    + rewrite shiftLeft_digits. lia.
    + lia.
  - (* shift left *)
    rewrite shiftLeft_pos_iter, shiftLeft_add.
    replace (Pos.to_nat d + k)%nat with (Z.to_nat (53 - digits p)) by lia.
    apply round_aux_exact.
    + unfold shr_fexp. cbn [Zdigits2 shr_record_of_loc].
      fold (digits (shiftLeft p (Z.to_nat (53 - digits p)))).
      rewrite shiftLeft_digits.
      replace (digits p + Z.of_nat (Z.to_nat (53 - digits p)) + (digits p - 53))
        with (digits p) by lia.
      rewrite fexp_small by lia.
      replace (digits p - 53 - (digits p - 53)) with 0 by lia.
      reflexivity.
    + rewrite shiftLeft_digits. lia.
    + lia.
Qed.

Lemma digits_lower p : 2 ^ (digits p - 1) <= Zpos p.
Proof.
  unfold digits. induction p as [p IH | p IH |]; simpl digits2_pos.
  - rewrite Pos2Z.inj_succ.
    replace (Z.succ (Z.pos (digits2_pos p)) - 1)
      with (Z.succ (Z.pos (digits2_pos p) - 1)) by lia.
    rewrite Z.pow_succ_r by lia. lia.
  - rewrite Pos2Z.inj_succ.
    replace (Z.succ (Z.pos (digits2_pos p)) - 1)
      with (Z.succ (Z.pos (digits2_pos p) - 1)) by lia.
    rewrite Z.pow_succ_r by lia. lia.
  - simpl. lia.
Qed.

Lemma digits_bound p : Zpos p < 2 ^ 53 -> digits p <= 53.
Proof.
  intros H. pose proof (digits_lower p) as L. pose proof (digits_pos p).
  destruct (Z_le_gt_dec (digits p) 53) as [|G]; trivial.
  exfalso.
  assert (2 ^ 53 <= 2 ^ (digits p - 1)) by (apply Z.pow_le_mono_r; lia).
  lia.
Qed.

(** Normalizing N * 2^K at exponent -K gives the double of N. *)
Lemma normalize_scaled N (K : nat) :
  - 2 ^ 53 < N < 2 ^ 53 -> (K <= 1074)%nat ->
  binary_normalize prec emax (N * 2 ^ Z.of_nat K) (- Z.of_nat K) false = ofZ N.
Proof.
  intros HN HK. unfold ofZ.
  destruct N as [|p|p].
  - reflexivity.
  - assert (E : Z.pos p * 2 ^ Z.of_nat K = Zpos (shiftLeft p K))
      by now rewrite shiftLeft_value.
    rewrite E. cbn [binary_normalize].
    rewrite binary_round_shift by (trivial; apply digits_bound; lia).
    change p with (shiftLeft p 0) at 2. change 0 with (- Z.of_nat 0).
    rewrite binary_round_shift; trivial; try lia. apply digits_bound; lia.
  - assert (E : Z.neg p * 2 ^ Z.of_nat K = Zneg (shiftLeft p K)).
    { change (Z.neg p) with (- Z.pos p).
      change (Z.neg (shiftLeft p K)) with (- Z.pos (shiftLeft p K)).
      rewrite shiftLeft_value. ring. }
    rewrite E. cbn [binary_normalize].
    rewrite binary_round_shift by (trivial; apply digits_bound; lia).
    change p with (shiftLeft p 0) at 2. change 0 with (- Z.of_nat 0).
    rewrite binary_round_shift; trivial; try lia. apply digits_bound; lia.
Qed.

Lemma ofZ_pos p : Zpos p < 2 ^ 53 -> ofZ (Zpos p) = canon false p.
Proof.
  intros H. unfold ofZ. cbn [binary_normalize].
  change p with (shiftLeft p 0) at 1. change 0 with (- Z.of_nat 0).
  apply binary_round_shift; try lia. now apply digits_bound.
Qed.

Lemma ofZ_neg p : Zpos p < 2 ^ 53 -> ofZ (Zneg p) = canon true p.
Proof.
  intros H. unfold ofZ. cbn [binary_normalize].
  change p with (shiftLeft p 0) at 1. change 0 with (- Z.of_nat 0).
  apply binary_round_shift; try lia. now apply digits_bound.
Qed.

(** The mantissa of an operand brought to the exponent [-K]. *)
Lemma align_canon p (K : nat) e :
  digits p <= 53 -> e <= digits p - 53 -> e = - Z.of_nat K ->
  fst (shl_align (shiftLeft p (Z.to_nat (53 - digits p))) (digits p - 53) e)
  = shiftLeft p K.
Proof.
  intros Hd He ->. pose proof (digits_pos p).
  unfold shl_align.
  destruct (- Z.of_nat K - (digits p - 53)) as [|n|d] eqn:E; cbn [fst].
  - f_equal. lia.
  - lia.
  - rewrite shiftLeft_pos_iter, shiftLeft_add. f_equal. lia.
Qed.

Lemma add_canon sa pa sb pb :
  Zpos pa < 2 ^ 53 -> Zpos pb < 2 ^ 53 ->
  - 2 ^ 53 < signed sa pa + signed sb pb < 2 ^ 53 ->
  add (canon sa pa) (canon sb pb) = ofZ (signed sa pa + signed sb pb).
Proof.
  intros Ha Hb Hab.
  pose proof (digits_bound Ha) as Da. pose proof (digits_bound Hb) as Db.
  pose proof (digits_pos pa). pose proof (digits_pos pb).
  unfold add, canon, SFadd.
  set (ez := Z.min (digits pa - 53) (digits pb - 53)).
  assert (Hez : ez = - Z.of_nat (Z.to_nat (- ez))) by lia.
  rewrite (@align_canon pa (Z.to_nat (- ez))) by (trivial; lia).
  rewrite (@align_canon pb (Z.to_nat (- ez))) by (trivial; lia).
  rewrite Hez at 3.
  rewrite <- (@normalize_scaled (signed sa pa + signed sb pb) (Z.to_nat (- ez)))
    by (trivial; lia).
  f_equal. unfold signed.
  rewrite Z.mul_add_distr_r.
  destruct sa, sb; cbn [cond_Zopp]; rewrite !shiftLeft_value; ring.
Qed.

Lemma sub_canon sa pa sb pb :
  Zpos pa < 2 ^ 53 -> Zpos pb < 2 ^ 53 ->
  - 2 ^ 53 < signed sa pa - signed sb pb < 2 ^ 53 ->
  sub (canon sa pa) (canon sb pb) = ofZ (signed sa pa - signed sb pb).
Proof.
  intros Ha Hb Hab.
  pose proof (digits_bound Ha) as Da. pose proof (digits_bound Hb) as Db.
  pose proof (digits_pos pa). pose proof (digits_pos pb).
  unfold sub, canon, SFsub.
  set (ez := Z.min (digits pa - 53) (digits pb - 53)).
  assert (Hez : ez = - Z.of_nat (Z.to_nat (- ez))) by lia.
  rewrite (@align_canon pa (Z.to_nat (- ez))) by (trivial; lia).
  rewrite (@align_canon pb (Z.to_nat (- ez))) by (trivial; lia).
  rewrite Hez at 3.
  rewrite <- (@normalize_scaled (signed sa pa - signed sb pb) (Z.to_nat (- ez)))
    by (trivial; lia).
  f_equal. unfold signed.
  rewrite Z.mul_sub_distr_r.
  destruct sa, sb; cbn [cond_Zopp]; rewrite !shiftLeft_value; ring.
Qed.

Lemma ofZ_canon n : inRange n -> n <> 0 ->
  exists s p, ofZ n = canon s p /\ n = signed s p /\ Zpos p < 2 ^ 53.
Proof.
  unfold inRange. intros Hn Hz. destruct n as [|p|p]; [congruence| |].
  - exists false, p. rewrite ofZ_pos by lia. repeat split. lia.
  - exists true, p. rewrite ofZ_neg by lia. repeat split. lia.
Qed.

(** ** The operations on integers *)

(** Adding two integer doubles whose sum is below 2^53 in size does not
    round. *)
Theorem add_ofZ a b :
  inRange a -> inRange b -> inRange (a + b) ->
  add (ofZ a) (ofZ b) = ofZ (a + b).
Proof.
  intros Ha Hb Hab.
  destruct (Z.eq_dec a 0) as [-> | Na].
  - simpl Z.add. change (ofZ 0) with (S754_zero false).
    destruct (Z.eq_dec b 0) as [-> | Nb]; [reflexivity|].
    destruct (ofZ_canon Hb Nb) as (s & p & -> & _). reflexivity.
  - destruct (ofZ_canon Ha Na) as (sa & pa & Ea & -> & Pa).
    destruct (Z.eq_dec b 0) as [-> | Nb].
    + rewrite Z.add_0_r, Ea. reflexivity.
    + destruct (ofZ_canon Hb Nb) as (sb & pb & Eb & -> & Pb).
      rewrite Ea, Eb. now apply add_canon.
Qed.

(** Neither does subtracting them when the difference is below 2^53 in
    size. *)
Theorem sub_ofZ a b :
  inRange a -> inRange b -> inRange (a - b) ->
  sub (ofZ a) (ofZ b) = ofZ (a - b).
Proof.
  intros Ha Hb Hab.
  destruct (Z.eq_dec b 0) as [-> | Nb].
  - rewrite Z.sub_0_r. change (ofZ 0) with (S754_zero false).
    destruct (Z.eq_dec a 0) as [-> | Na]; [reflexivity|].
    destruct (ofZ_canon Ha Na) as (s & p & -> & _). reflexivity.
  - destruct (ofZ_canon Hb Nb) as (sb & pb & Eb & -> & Pb).
    destruct (Z.eq_dec a 0) as [-> | Na].
    + change (ofZ 0) with (S754_zero false). rewrite Eb.
      unfold sub, canon. cbn [SFsub].
      assert (R : inRange (signed (negb sb) pb)).
      { unfold inRange, signed in *. destruct sb; cbn [cond_Zopp negb] in *; lia. }
      assert (N : signed (negb sb) pb <> 0).
      { unfold signed. destruct sb; cbn [cond_Zopp negb]; lia. }
      replace (0 - signed sb pb) with (signed (negb sb) pb)
        by (unfold signed; destruct sb; cbn [cond_Zopp negb]; lia).
      unfold signed. destruct sb; cbn [negb cond_Zopp Z.opp].
      * now rewrite ofZ_pos.
      * now rewrite ofZ_neg.
    + destruct (ofZ_canon Ha Na) as (sa & pa & Ea & -> & Pa).
      rewrite Ea, Eb. now apply sub_canon.
Qed.

(** ** What an integer double stands for *)

Lemma value_canon s p :
  digits p <= 53 -> (value (canon s p) == inject_Z (signed s p))%Q.
Proof.
  intros Hd. pose proof (digits_pos p).
  unfold canon, value, signed.
  set (j := Z.to_nat (53 - digits p)).
  replace (digits p - 53) with (- Z.of_nat j) by lia.
  assert (E : (inject_Z (Zpos (shiftLeft p j)) * Qpower 2 (- Z.of_nat j)
               == inject_Z (Zpos p))%Q).
  { rewrite shiftLeft_value, inject_Z_mult, Zpower_Qpower by lia.
    rewrite Qpower_opp.
    change (inject_Z 2) with (2%Q).
    field. apply Qpower_not_0. discriminate. }
  destruct s; cbn [cond_Zopp]; trivial.
  change (- Z.pos (shiftLeft p j)) with (Z.neg (shiftLeft p j)).
  change (Z.neg (shiftLeft p j)) with (- Z.pos (shiftLeft p j))%Z.
  change (- Z.pos p)%Z with (Z.opp (Z.pos p)).
  rewrite !inject_Z_opp.
  rewrite <- E. ring.
Qed.

Lemma value_ofZ n : inRange n -> (value (ofZ n) == inject_Z n)%Q.
Proof.
  intros Hn. destruct (Z.eq_dec n 0) as [-> | N]; [reflexivity|].
  destruct (ofZ_canon Hn N) as (s & p & -> & -> & Hp).
  apply value_canon. now apply digits_bound.
Qed.

Lemma isFinite_ofZ n : inRange n -> isFinite (ofZ n) = true.
Proof.
  intros Hn. destruct (Z.eq_dec n 0) as [-> | N]; [reflexivity|].
  destruct (ofZ_canon Hn N) as (s & p & -> & _). reflexivity.
Qed.

Lemma gt0_ofZ n : inRange n -> gt0 (ofZ n) = (0 <? n).
Proof.
  intros Hn. destruct (Z.eq_dec n 0) as [-> | N]; [reflexivity|].
  destruct (ofZ_canon Hn N) as (s & p & -> & -> & Hp).
  unfold signed. destruct s; reflexivity.
Qed.

Lemma exactAdd_ofZ a b :
  inRange a -> inRange b -> inRange (a + b) ->
  exactAdd (ofZ a) (ofZ b) = true.
Proof.
  intros Ha Hb Hab. unfold exactAdd.
  rewrite add_ofZ, !isFinite_ofZ by trivial. simpl.
  apply Qeq_bool_iff.
  rewrite !value_ofZ by trivial. rewrite inject_Z_plus. reflexivity.
Qed.

Lemma exactSub_ofZ a b :
  inRange a -> inRange b -> inRange (a - b) ->
  exactSub (ofZ a) (ofZ b) = true.
Proof.
  intros Ha Hb Hab. unfold exactSub.
  rewrite sub_ofZ, !isFinite_ofZ by trivial. simpl.
  apply Qeq_bool_iff.
  rewrite !value_ofZ by trivial.
  unfold Z.sub. rewrite inject_Z_plus, inject_Z_opp. ring.
Qed.

End Binary64Facts.

(** * The integer model and the doubles *)

Module EmbedFacts.

Import Binary64Facts.

Lemma roomFor_tail s d l :
  Embed.roomFor s (d :: l) ->
  nonNegative d /\ Embed.roomFor (addDatum s d) l /\ Embed.roomFor zeroSums l.
Proof.
  unfold Embed.roomFor. intros (Hnn & H1 & H2 & H3 & H4).
  inversion Hnn as [|? ? Hd Hl]; subst.
  destruct (nonNegative_totals Hl) as (T1 & T2 & T3 & T4).
  unfold nonNegative in Hd. simpl in *.
  repeat split; trivial; lia.
Qed.

Ltac ranges := unfold Double.inRange; simpl in *; lia.

Lemma embed_addDatum s d l :
  Embed.roomFor s (d :: l) ->
  Double.addDatum (Embed.sumsOf s) (Embed.datum d) = Embed.sumsOf (addDatum s d) /\
  Double.exactStep (Embed.sumsOf s) (Embed.datum d) = true.
Proof.
  intros H. pose proof H as (Hnn & H1 & H2 & H3 & H4).
  inversion Hnn as [|? ? Hd Hl]; subst.
  destruct (nonNegative_totals Hl) as (T1 & T2 & T3 & T4).
  unfold nonNegative in Hd. simpl in *.
  split.
  - unfold Double.addDatum, Embed.sumsOf, Embed.datum, addDatum; simpl.
    rewrite !add_ofZ by ranges. reflexivity.
  - unfold Double.exactStep; simpl.
    rewrite !exactAdd_ofZ by ranges. reflexivity.
Qed.

Lemma embed_sumPoint h s :
  Double.inRange (saplingSum s) -> Double.inRange (saplingFilterSum s) ->
  Double.inRange (orchardSum s) -> Double.inRange (orchardFilterSum s) ->
  Double.sumPoint h (Embed.sumsOf s) = Embed.point (sumPoint h s).
Proof.
  intros H1 H2 H3 H4.
  unfold Double.sumPoint, Embed.point, sumPoint, Double.positiveOrNull,
    positiveOrNull; simpl.
  rewrite !gt0_ofZ by trivial.
  destruct (0 <? orchardSum s), (0 <? orchardFilterSum s); reflexivity.
Qed.

Lemma embed_bucketPoint h s :
  0 <= saplingSum s < 2 ^ 53 -> 0 <= saplingFilterSum s < 2 ^ 53 ->
  0 <= orchardSum s < 2 ^ 53 -> 0 <= orchardFilterSum s < 2 ^ 53 ->
  Double.bucketPoint h (Embed.sumsOf s) = Embed.point (bucketPoint h s) /\
  Double.exactBucket (Embed.sumsOf s) = true.
Proof.
  intros H1 H2 H3 H4. split.
  - unfold Double.bucketPoint, Embed.point, bucketPoint, Double.positiveOrNull,
      positiveOrNull; simpl.
    rewrite !gt0_ofZ, !sub_ofZ by ranges.
    destruct (0 <? orchardSum s), (0 <? orchardFilterSum s); reflexivity.
  - unfold Double.exactBucket; simpl.
    rewrite gt0_ofZ, !exactSub_ofZ by ranges.
    destruct (0 <? orchardFilterSum s); reflexivity.
Qed.

Lemma roomFor_bounds s l :
  Embed.roomFor s l ->
  0 <= saplingSum s < 2 ^ 53 /\ 0 <= saplingFilterSum s < 2 ^ 53 /\
  0 <= orchardSum s < 2 ^ 53 /\ 0 <= orchardFilterSum s < 2 ^ 53.
Proof.
  intros (Hnn & H1 & H2 & H3 & H4).
  destruct (nonNegative_totals Hnn) as (T1 & T2 & T3 & T4). lia.
Qed.

Lemma embed_chartDataSumFrom l : forall s,
  Embed.roomFor s l ->
  Double.chartDataSumFrom (Embed.sumsOf s) (map Embed.datum l)
    = map Embed.point (chartDataSumFrom s l) /\
  Double.cumulativeExactFrom (Embed.sumsOf s) (map Embed.datum l) = true.
Proof.
  induction l as [|d l IH]; intros s H; [split; reflexivity|].
  destruct (embed_addDatum H) as [Ea Ex].
  destruct (roomFor_tail H) as (Hd & Hs' & _).
  destruct (IH _ Hs') as [IH1 IH2].
  pose proof (roomFor_bounds Hs') as (B1 & B2 & B3 & B4).
  simpl. rewrite Ea, Ex, IH1, IH2. split; trivial.
  f_equal. apply embed_sumPoint; ranges.
Qed.

Lemma filter_embed (f : Z -> bool) points :
  filter (fun p => f (Double.p_height p)) (map Embed.point points) =
  map Embed.point (filter (fun p => f (p_height p)) points).
Proof.
  induction points as [|p points IH]; simpl; [reflexivity|].
  destruct (f (p_height p)); simpl; now rewrite IH.
Qed.

Lemma embed_periodLoop l : forall st,
  Embed.roomFor (sums st) l ->
  Double.periodLoop (Embed.state st) (map Embed.datum l)
    = Embed.state (periodLoop st l) /\
  Double.periodicExactFrom (Embed.sumsOf (sums st)) (map Embed.datum l) = true.
Proof.
  induction l as [|d l IH]; intros st H; [split; reflexivity|].
  destruct (embed_addDatum H) as [Ea Ex].
  destruct (roomFor_tail H) as (Hd & Hs' & Hz).
  pose proof (roomFor_bounds Hs') as (B1 & B2 & B3 & B4).
  destruct (@embed_bucketPoint (height d) _ B1 B2 B3 B4) as [Eb Exb].
  simpl. rewrite Ex. simpl.
  assert (Estep : Double.periodStep (Embed.state st) (Embed.datum d)
                  = Embed.state (periodStep st d)).
  { unfold Double.periodStep, periodStep, Embed.state. simpl.
    rewrite Ea. destruct (onMonth (height d)); simpl; trivial.
    rewrite Eb, map_app. reflexivity. }
  rewrite Estep. rewrite Ea.
  destruct (onMonth (height d)) eqn:Hm.
  - destruct (IH (periodStep st d)) as [IH1 IH2].
    { unfold periodStep. rewrite Hm. exact Hz. }
    rewrite IH1. split; trivial.
    rewrite Exb. simpl.
    unfold periodStep in IH2. rewrite Hm in IH2. exact IH2.
  - destruct (IH (periodStep st d)) as [IH1 IH2].
    { unfold periodStep. rewrite Hm. exact Hs'. }
    rewrite IH1. split; trivial.
    unfold periodStep in IH2. rewrite Hm in IH2. exact IH2.
Qed.

(** X17.  On integer samples without negative deltas whose four totals are
    below 2^53, the loops on doubles compute what the integer model
    computes: in both modes the points built from the samples written as
    doubles are the points of the integer model written as doubles, and no
    addition of the two loops and no subtraction of a pushed point
    rounds. *)
Theorem double_loops_agree_on_small_integers samples :
  Embed.smallData samples ->
  Double.cumulativeData (map Embed.datum samples)
    = map Embed.point (cumulativeData samples) /\
  Double.periodicData (map Embed.datum samples)
    = map Embed.point (periodicData samples) /\
  Double.cumulativeExact (map Embed.datum samples) = true /\
  Double.periodicExact (map Embed.datum samples) = true.
Proof.
  intros H.
  destruct (embed_chartDataSumFrom H) as [C1 C2].
  destruct (@embed_periodLoop samples initPeriodState H) as [P1 P2].
  repeat split; trivial.
  - unfold Double.cumulativeData, Double.chartDataSum, cumulativeData, chartDataSum.
    change Double.zeroSums with (Embed.sumsOf zeroSums).
    rewrite C1. apply (filter_embed onPeriod).
  - unfold Double.periodicData, periodicData.
    change Double.initPeriodState with (Embed.state initPeriodState).
    rewrite P1. reflexivity.
Qed.

Lemma double_loops_agree_on_small_integers_witness :
  Double.cumulativeData (map Embed.datum monthSamples)
    = map Embed.point (cumulativeData monthSamples) /\
  Double.periodicData (map Embed.datum monthSamples)
    = map Embed.point (periodicData monthSamples) /\
  Double.cumulativeExact (map Embed.datum monthSamples) = true /\
  Double.periodicExact (map Embed.datum monthSamples) = true.
Proof.
  apply (@double_loops_agree_on_small_integers monthSamples).
  unfold Embed.smallData, Embed.roomFor, monthSamples, nonNegative.
  repeat split; simpl; try lia; repeat constructor; simpl; lia.
Defined.

End EmbedFacts.
